(** * lib/runner.js: the coordinator that runs a test script across local workers

    A shallow embedding of [lib/runner.js].  The coordinator forks one worker
    process per sub-script, collects the messages the workers send back,
    merges their statistics on a timer and reports phase changes, periodic
    statistics and completion through an event emitter.

    Numbers are modelled as [Z]: phase indices, process ids and the
    [_concurrency] gauge are integer counts in the program.  The values the
    coordinator only passes along (script bodies, payload, options, phase
    metadata, the measurements inside a statistics object) are kept abstract
    as one type [Json].  The two modules the file requires but does not
    define, [artillery-core]'s [stats] and [./dist], are interfaces. *)

From Stdlib Require Import ZArith Ascii String List Permutation Lia.
From stdpp Require Import base option list sorting gmap fin_maps strings.

Local Open Scope string_scope.
Local Open Scope list_scope.
Local Open Scope Z_scope.

(** ** Data model *)

(** The value of a JavaScript expression that is a string, a number or
    [undefined], with the truthiness [||] tests. *)
Inductive JsVal :=
| JsUndefined
| JsStr (s : string)
| JsNum (n : Z).

(** A handler either returns or throws a [TypeError]. *)
Inductive result (A : Type) :=
| Ok (a : A)
| TypeError.

Arguments Ok {A}.
Arguments TypeError {A}.

Section DataModel.
Variable Json : Type.

(** [script.config]: the coordinator reads and overwrites [statsInterval]. *)
Record Config := mkConfig {
  statsInterval : Z;
  settings : Json
}.

Record Script := mkScript {
  config : Config;
  scenarios : Json
}.

(** [message.phase]: only [index] is inspected. *)
Record Phase := mkPhase {
  index : Z;
  metadata : Json
}.

(** A statistics object of [artillery-core]; the coordinator reads and
    overwrites its [_concurrency] field and nothing else. *)
Record Stats := mkStats {
  _concurrency : Z;
  measurements : Json
}.

(** The [opts] of the command sent to a worker. *)
Record RunOpts := mkRunOpts {
  script : Script;
  payload : Json;
  options : Json
}.

Record Command := mkCommand {
  command : string;
  opts : RunOpts
}.

(** The handle [fork] returns: the child's pid, the commands sent to it
    with [send], and whether [kill] was called on it. *)
Record ChildProcess := mkChildProcess {
  cp_pid : Z;
  sent : list Command;
  killed : bool
}.

(** An entry of [this._workers]. *)
Record Worker := mkWorker {
  proc : ChildProcess;
  isDone : bool
}.

(** A message received from a worker.  The handler reads a field only
    under the event kind that carries it; the record gives every message
    all of them.  A message that lacks the field its kind carries (a
    [phaseStarted] without [phase], a [stats] without [stats]) makes the
    source throw where it reads into the missing object; such messages are
    not among the values of this type. *)
Record Message := mkMessage {
  event : string;
  phase : Phase;
  pid : Z;
  stats : Stats
}.

(** What [this.events.emit] hands to the caller. *)
Inductive Emitted :=
| EmitPhaseStarted (p : Phase)
| EmitStats (combined : Stats)
| EmitDone (report : Stats).

(** The coordinator object.  [events] is the log of everything emitted so
    far, oldest first.  [timers] is not a property of the JavaScript
    object: it lists the periods (in ms) of the intervals the coordinator
    has registered with [setInterval]. *)
Record Runner := mkRunner {
  _script : Script;
  _payload : Json;
  _opts : Json;
  _workers : gmap Z Worker;
  events : list Emitted;
  _intermediates : list (Z * Stats);
  _allIntermediates : list Stats;
  _currentPhase : Z;
  timers : list Z
}.

End DataModel.

Arguments mkConfig {Json}. Arguments statsInterval {Json}. Arguments settings {Json}.
Arguments mkScript {Json}. Arguments config {Json}. Arguments scenarios {Json}.
Arguments mkPhase {Json}. Arguments index {Json}. Arguments metadata {Json}.
Arguments mkStats {Json}. Arguments _concurrency {Json}. Arguments measurements {Json}.
Arguments mkRunOpts {Json}. Arguments script {Json}. Arguments payload {Json}.
Arguments options {Json}.
Arguments mkCommand {Json}. Arguments command {Json}. Arguments opts {Json}.
Arguments mkChildProcess {Json}. Arguments cp_pid {Json}. Arguments sent {Json}.
Arguments killed {Json}.
Arguments mkWorker {Json}. Arguments proc {Json}. Arguments isDone {Json}.
Arguments mkMessage {Json}. Arguments event {Json}. Arguments phase {Json}.
Arguments pid {Json}. Arguments stats {Json}.
Arguments EmitPhaseStarted {Json}. Arguments EmitStats {Json}. Arguments EmitDone {Json}.
Arguments mkRunner {Json}. Arguments _script {Json}. Arguments _payload {Json}.
Arguments _opts {Json}. Arguments _workers {Json}. Arguments events {Json}.
Arguments _intermediates {Json}. Arguments _allIntermediates {Json}.
Arguments _currentPhase {Json}. Arguments timers {Json}.

(** ** The modules the coordinator requires *)

(** [require('artillery-core').stats]: [combine] merges a list of statistics
    objects into one, [round number decimals] rounds. *)
Class StatsLib (Json : Type) := {
  combine : list (Stats Json) → Stats Json;
  round : Z → Z → Z
}.

(** [require('./dist')]: splits a script into the scripts of the workers. *)
Class Distributor (Json : Type) := {
  divideWork : Script Json → JsVal → list (Script Json)
}.

(** What one call of [run] reads from its process: the environment variable
    [ARTILLERY_WORKERS] ([None] when unset), [os.cpus().length], and the pid
    the operating system gives to the [i]-th child forked by the call. *)
Record Host := mkHost {
  ARTILLERY_WORKERS : option string;
  cpus_length : Z;
  fork : nat → Z
}.

(** What the event loop delivers to a running coordinator: a message of a
    worker, or a tick of the interval that calls [_sendStats]. *)
Inductive Input (Json : Type) :=
| Incoming (message : Message Json)
| Tick.

Arguments Incoming {Json}.
Arguments Tick {Json}.

(** ** JavaScript and lodash helpers *)

Definition truthy (v : JsVal) : bool :=
  match v with
  | JsUndefined => false
  | JsStr s => negb (String.eqb s "")
  | JsNum n => negb (n =? 0)
  end.

(** [a || b] *)
Definition js_or (a b : JsVal) : JsVal := if truthy a then a else b.

(** [process.env.NAME] *)
Definition env_value (v : option string) : JsVal :=
  match v with
  | Some s => JsStr s
  | None => JsUndefined
  end.

(** [L.sum] of an array of numbers; [0] for the empty array. *)
Definition L_sum (l : list Z) : Z := foldr Z.add 0 l.

(** [L.map(object, function(v) { return v; })]: the values of an object.
    JavaScript lists them by ascending integer key; the order plays no role
    in the sum, the only use made of them. *)
Definition L_values {A : Type} (o : gmap Z A) : list A := (map_to_list o).*2.

(** [Object.keys(object)]; their order plays no role in the count made of
    them. *)
Definition Object_keys {A : Type} (o : gmap Z A) : list Z := (map_to_list o).*1.

(** The decimal digit a character writes. *)
Definition digit (c : ascii) : option Z :=
  let n := Z.of_N (N_of_ascii c) in
  if (48 <=? n) && (n <=? 57) then Some (n - 48) else None.

(** The number a string of decimal digits writes, read from the left with
    [acc] the number read so far. *)
Fixpoint decimal (acc : Z) (s : string) : option Z :=
  match s with
  | EmptyString => Some acc
  | String c s =>
      match digit c with
      | Some d => decimal (10 * acc + d) s
      | None => None
      end
  end.

(** [Number(v)], the number JavaScript makes of a value where a number is
    wanted: a number is itself, the empty string is 0, a string of decimal
    digits is the number it writes.  [None] stands for [NaN] ([undefined], a
    text that writes no number) and for the texts that write a number in
    another way (sign, blanks, fraction, exponent, hexadecimal), which this
    model does not read. *)
Definition ToNumber (v : JsVal) : option Z :=
  match v with
  | JsUndefined => None
  | JsStr s => decimal 0 s
  | JsNum n => Some n
  end.

(** Modelled from the spec: [./dist] is not under [src/].  The spec's work
    distributor takes a script and a worker count and partitions the plan
    into that many worker-specific sub-plans, one script per worker. *)
Definition distributes_by_count {Json : Type} (dist : Distributor Json) : Prop :=
  ∀ script v n, ToNumber v = Some n → length (divideWork script v) = Z.to_nat n.

(** ** The coordinator *)

Section Coordinator.
Context {Json : Type} {lib : StatsLib Json} {dist : Distributor Json}.

Definition set_workers (w : gmap Z (Worker Json)) (this : Runner Json) : Runner Json :=
  mkRunner (_script this) (_payload this) (_opts this) w (events this)
           (_intermediates this) (_allIntermediates this) (_currentPhase this)
           (timers this).

(** [this.events.emit(...)] *)
Definition emit (e : Emitted Json) (this : Runner Json) : Runner Json :=
  mkRunner (_script this) (_payload this) (_opts this) (_workers this)
           (events this ++ [e])
           (_intermediates this) (_allIntermediates this) (_currentPhase this)
           (timers this).

Definition set_intermediates (l : list (Z * Stats Json)) (this : Runner Json) : Runner Json :=
  mkRunner (_script this) (_payload this) (_opts this) (_workers this) (events this)
           l (_allIntermediates this) (_currentPhase this) (timers this).

Definition set_allIntermediates (l : list (Stats Json)) (this : Runner Json) : Runner Json :=
  mkRunner (_script this) (_payload this) (_opts this) (_workers this) (events this)
           (_intermediates this) l (_currentPhase this) (timers this).

Definition set_currentPhase (i : Z) (this : Runner Json) : Runner Json :=
  mkRunner (_script this) (_payload this) (_opts this) (_workers this) (events this)
           (_intermediates this) (_allIntermediates this) i (timers this).

(** [setInterval(callback, period).unref()] *)
Definition setInterval (period : Z) (this : Runner Json) : Runner Json :=
  mkRunner (_script this) (_payload this) (_opts this) (_workers this) (events this)
           (_intermediates this) (_allIntermediates this) (_currentPhase this)
           (timers this ++ [period]).

(** [createRunner(script, payload, opts)], that is [new Runner(...)]. *)
Definition createRunner (script : Script Json) (payload opts : Json) : Runner Json :=
  mkRunner script payload opts ∅ [] [] [] (-1) [].

(** [process.env.ARTILLERY_WORKERS || 1 || os.cpus().length] *)
Definition numWorkers (h : Host) : JsVal :=
  js_or (js_or (env_value (ARTILLERY_WORKERS h)) (JsNum 1)) (JsNum (cpus_length h)).

(** [s.config.statsInterval = 1] *)
Definition overwrite_statsInterval (s : Script Json) : Script Json :=
  mkScript (mkConfig 1 (settings (config s))) (scenarios s).

(** The scripts [run] hands to the workers. *)
Definition workerScripts (h : Host) (this : Runner Json) : list (Script Json) :=
  overwrite_statsInterval <$> divideWork (_script this) (numWorkers h).

(** The body of the second [L.each] of [run] for the [i]-th script: fork a
    child, register it under its pid as not done, send it the run command. *)
Definition spawn (h : Host) (this : Runner Json) (i : nat) (script : Script Json)
    : Runner Json :=
  let workerProcess :=
    mkChildProcess (fork h i)
      [mkCommand "run" (mkRunOpts script (_payload this) (_opts this))] false in
  set_workers (<[cp_pid workerProcess := mkWorker workerProcess false]> (_workers this))
              this.

(** [L.each(workerScripts, (script) => { ... })], the scripts taken in
    order with their position. *)
Definition spawn_all (h : Host) (this : Runner Json) (scripts : list (Script Json))
    : Runner Json :=
  foldl (λ this el, spawn h this el.1 el.2) this (imap pair scripts).

Definition run (h : Host) (this : Runner Json) : Runner Json :=
  let this := spawn_all h this (workerScripts h this) in
  setInterval (statsInterval (config (_script this)) * 1000) this.

(** The [L.reduce] of [_sendStats] over [this._intermediates], starting
    from the empty object: [acc[pid]] is set to the snapshot's
    [_concurrency] when it is still [undefined], and to
    [L.max([acc[pid], intermediate._concurrency])] otherwise. *)
Definition maxWorkerConcurrencies (intermediates : list (Z * Stats Json)) : gmap Z Z :=
  foldl (λ acc el,
           let pid := el.1 in
           let intermediate := el.2 in
           match acc !! pid with
           | Some v => <[pid := Z.max v (_concurrency intermediate)]> acc
           | None => <[pid := _concurrency intermediate]> acc
           end)
        ∅ intermediates.

Definition averageConcurrency (intermediates : list (Z * Stats Json)) : Z :=
  round (L_sum (L_values (maxWorkerConcurrencies intermediates))) 1.

Definition _sendStats (this : Runner Json) : Runner Json :=
  let averageConcurrency := averageConcurrency (_intermediates this) in
  let combined := combine ((_intermediates this).*2) in
  let combined := mkStats averageConcurrency (measurements combined) in
  let this := emit (EmitStats combined) this in
  set_intermediates [] this.

(** [count] starts at the number of keys and goes down by one per done
    worker.  Every pid looked up is a key of the map, so the [None] branch
    is never taken. *)
Definition _activeWorkerCount (this : Runner Json) : Z :=
  let pids := Object_keys (_workers this) in
  foldl (λ count pid,
           match _workers this !! pid with
           | Some worker => if isDone worker then count - 1 else count
           | None => count
           end)
        (Z.of_nat (length pids)) pids.

(** [worker.proc.kill()] *)
Definition kill (p : ChildProcess Json) : ChildProcess Json :=
  mkChildProcess (cp_pid p) (sent p) true.

(** The four [if]s of the handler, in order.  In the last one
    [this._workers[message.pid]] is [undefined] for a pid that is no key of
    the map, and [worker.isDone = true] then throws before anything is
    changed. *)
Definition _onWorkerMessage (message : Message Json) (this : Runner Json)
    : result (Runner Json) :=
  let this :=
    if decide (event message = "phaseStarted") then
      if index (phase message) >? _currentPhase this then
        set_currentPhase (index (phase message))
          (emit (EmitPhaseStarted (phase message)) this)
      else this
    else this in
  let this :=
    if decide (event message = "phaseCompleted") then this else this in
  let this :=
    if decide (event message = "stats") then
      set_allIntermediates (_allIntermediates this ++ [stats message])
        (set_intermediates (_intermediates this ++ [(pid message, stats message)]) this)
    else this in
  if decide (event message = "done") then
    match _workers this !! pid message with
    | None => TypeError
    | Some worker =>
        let worker := mkWorker (kill (proc worker)) true in
        let this := set_workers (<[pid message := worker]> (_workers this)) this in
        if _activeWorkerCount this =? 0 then
          let this := _sendStats this in
          Ok (emit (EmitDone (combine (_allIntermediates this))) this)
        else Ok this
    end
  else Ok this.

(** The event loop: inputs are handled one at a time, to completion; an
    uncaught [TypeError] ends the process. *)
Definition deliver (i : Input Json) (this : Runner Json) : result (Runner Json) :=
  match i with
  | Incoming message => _onWorkerMessage message this
  | Tick => Ok (_sendStats this)
  end.

Fixpoint process (inputs : list (Input Json)) (this : Runner Json)
    : result (Runner Json) :=
  match inputs with
  | [] => Ok this
  | i :: inputs =>
      match deliver i this with
      | Ok this => process inputs this
      | TypeError => TypeError
      end
  end.

End Coordinator.

(** ** Reading a run: what went in and what came out *)

Section Traces.
Context {Json : Type}.

(** The [(pid, stats)] pairs of the [stats] messages among the inputs, in
    order of arrival. *)
Definition received (inputs : list (Input Json)) : list (Z * Stats Json) :=
  omap (λ i, match i with
             | Incoming m =>
                 if decide (event m = "stats") then Some (pid m, stats m) else None
             | Tick => None
             end) inputs.

(** The pids of the [done] messages among the inputs, in order of arrival. *)
Definition done_pids (inputs : list (Input Json)) : list Z :=
  omap (λ i, match i with
             | Incoming m => if decide (event m = "done") then Some (pid m) else None
             | Tick => None
             end) inputs.

(** The phase indices of the [phaseStarted] events of a log, in order. *)
Definition phase_indices (log : list (Emitted Json)) : list Z :=
  omap (λ e, match e with EmitPhaseStarted p => Some (index p) | _ => None end) log.

(** The payloads of the [stats] events of a log, in order. *)
Definition stats_reports (log : list (Emitted Json)) : list (Stats Json) :=
  omap (λ e, match e with EmitStats r => Some r | _ => None end) log.

(** The payloads of the [done] events of a log, in order. *)
Definition done_reports (log : list (Emitted Json)) : list (Stats Json) :=
  omap (λ e, match e with EmitDone r => Some r | _ => None end) log.

(** Every [done] event of the log comes right after a [stats] event. *)
Definition flushed_before_done (log : list (Emitted Json)) : Prop :=
  ∀ before report after,
    log = before ++ EmitDone report :: after →
    ∃ before' combined, before = before' ++ [EmitStats combined].

(** *** The aggregate concurrency in the words of the specification

    Group the buffer by worker, take each worker's largest concurrency,
    add these up. *)

Definition concurrencies_of (p : Z) (buffer : list (Z * Stats Json)) : list Z :=
  _concurrency <$> (filter (λ el, el.1 = p) buffer).*2.

Definition worker_maximum (p : Z) (buffer : list (Z * Stats Json)) : option Z :=
  match concurrencies_of p buffer with
  | [] => None
  | c :: cs => Some (foldl Z.max c cs)
  end.

(** The sum of a list of numbers, written out for the specification side;
    the code's [L.sum] is [L_sum]. *)
Fixpoint total (values : list Z) : Z :=
  match values with
  | [] => 0
  | v :: values => v + total values
  end.

Definition spec_aggregate_concurrency (buffer : list (Z * Stats Json)) : Z :=
  total ((λ p, default 0 (worker_maximum p buffer)) <$> remove_dups buffer.*1).

(** The report a flush builds from a buffer: [combine] of the snapshots with
    the concurrency overwritten. *)
Definition flush_report {lib : StatsLib Json} (buffer : list (Z * Stats Json)) : Stats Json :=
  mkStats (averageConcurrency buffer) (measurements (combine buffer.*2)).

End Traces.

Arguments received {Json} inputs : simpl never.
Arguments done_pids {Json} inputs : simpl never.

(** ** Steps and invariants of the loop *)

Section Steps.
Context {Json : Type} {lib : StatsLib Json}.

(** What one delivered input does, field by field.  Only a [done] message
    touches the workers, only a [phaseStarted] message the phase. *)
Inductive delivered (i : Input Json) (this after : Runner Json) : Prop :=
| delivered_tick :
    i = Tick → after = _sendStats this → delivered i this after
| delivered_phase m :
    i = Incoming m → event m = "phaseStarted" →
    _currentPhase this < index (phase m) →
    after = set_currentPhase (index (phase m)) (emit (EmitPhaseStarted (phase m)) this) →
    delivered i this after
| delivered_nothing m :
    i = Incoming m → event m ≠ "stats" → event m ≠ "done" →
    after = this → delivered i this after
| delivered_stats m :
    i = Incoming m → event m = "stats" →
    after = set_allIntermediates (_allIntermediates this ++ [stats m])
              (set_intermediates (_intermediates this ++ [(pid m, stats m)]) this) →
    delivered i this after
| delivered_done m worker :
    i = Incoming m → event m = "done" →
    _workers this !! pid m = Some worker →
    let marked :=
      set_workers (<[pid m := mkWorker (kill (proc worker)) true]> (_workers this)) this in
    _activeWorkerCount marked ≠ 0 →
    after = marked → delivered i this after
| delivered_last_done m worker :
    i = Incoming m → event m = "done" →
    _workers this !! pid m = Some worker →
    let marked :=
      set_workers (<[pid m := mkWorker (kill (proc worker)) true]> (_workers this)) this in
    _activeWorkerCount marked = 0 →
    after = emit (EmitDone (combine (_allIntermediates this))) (_sendStats marked) →
    delivered i this after.

(** The indices announced so far increase strictly and none exceeds the
    current phase. *)
Definition phases_in_order (this : Runner Json) : Prop :=
  StronglySorted Z.lt (phase_indices (events this)) ∧
  Forall (λ i, i ≤ _currentPhase this) (phase_indices (events this)).

(** The state of completion after some inputs, for a run whose workers
    [registered] all started as not done: the workers are the same, those
    done are the ones that said so, and [done] was emitted, once and right
    after a flush, exactly if every worker said so (and there is one). *)
Definition completion_tracked (registered : gset Z) (inputs : list (Input Json))
    (this : Runner Json) : Prop :=
  dom (_workers this) = registered ∧
  (∀ q w, _workers this !! q = Some w → isDone w = true ↔ q ∈ done_pids inputs) ∧
  (length (done_reports (events this)) ≤ 1)%nat ∧
  (done_reports (events this) ≠ [] ↔
     registered ≠ ∅ ∧ ∀ q, q ∈ registered → q ∈ done_pids inputs) ∧
  flushed_before_done (events this).

End Steps.

(** ** Further readings of a run *)

Section Readings.
Context {Json : Type}.

(** The phase indices of the [phaseStarted] messages among the inputs, in
    order of arrival. *)
Definition started (inputs : list (Input Json)) : list Z :=
  omap (λ i, match i with
             | Incoming m =>
                 if decide (event m = "phaseStarted") then Some (index (phase m))
                 else None
             | Tick => None
             end) inputs.

(** Of a sequence of phase indices, those that are above [current] and
    above every index before them. *)
Fixpoint new_highs (current : Z) (indices : list Z) : list Z :=
  match indices with
  | [] => []
  | x :: indices =>
      if x >? current then x :: new_highs x indices else new_highs current indices
  end.

(** The ticks among the inputs. *)
Definition ticks (inputs : list (Input Json)) : list unit :=
  omap (λ i, match i with Incoming _ => None | Tick => Some () end) inputs.

(** The entries of the workers map that are not done. *)
Definition active_workers (workers : gmap Z (Worker Json)) : list (Z * Worker Json) :=
  filter (λ entry, isDone entry.2 = false) (map_to_list workers).

(** What [run] and the handler keep true of an entry of the workers map:
    it sits under the pid of its process, the process was killed exactly if
    the worker is done, and it was sent one command, [run], with a script
    whose [statsInterval] is 1 and the coordinator's payload and options. *)
Definition registered_by_run (payload opts : Json) (q : Z) (w : Worker Json) : Prop :=
  cp_pid (proc w) = q ∧
  killed (proc w) = isDone w ∧
  ∃ s, sent (proc w) = [mkCommand "run" (mkRunOpts s payload opts)] ∧
       statsInterval (config s) = 1.

End Readings.

Arguments started {Json} inputs : simpl never.
Arguments ticks {Json} inputs : simpl never.

(** ** A concrete instance, used to run the model

    Statistics whose measurements are the list of the markers merged into
    them; [combine] concatenates the markers and adds the concurrencies up,
    [round] keeps an integer as it is; the distributor hands out as many
    copies of the script as the number it is given (one for a string). *)

Module Demo.

Definition stats_lib : StatsLib (list Z) :=
  {| combine := λ l, mkStats (L_sum (_concurrency <$> l)) (l ≫= measurements);
     round := λ v _, v |}.

Definition distributor : Distributor (list Z) :=
  {| divideWork := λ s n,
       match n with
       | JsNum k => replicate (Z.to_nat k) s
       | _ => [s]
       end |}.

Definition the_script : Script (list Z) := mkScript (mkConfig 10 []) [].

(** No [ARTILLERY_WORKERS]; pids 100, 101, ... *)
Definition host : Host := mkHost None 8 (λ i, 100 + Z.of_nat i).

(** [ARTILLERY_WORKERS=3]; pids 200, 201, ... *)
Definition host3 : Host := mkHost (Some "3") 8 (λ i, 200 + Z.of_nat i).

Definition distributor3 : Distributor (list Z) :=
  {| divideWork := λ s n, [s; s; s] |}.

Definition fresh : Runner (list Z) := createRunner the_script [] [].

Definition phaseStarted (i : Z) : Input (list Z) :=
  Incoming (mkMessage "phaseStarted" (mkPhase i []) 0 (mkStats 0 [])).

Definition phaseCompleted : Message (list Z) :=
  mkMessage "phaseCompleted" (mkPhase 0 []) 0 (mkStats 0 []).

Definition snapshot (p concurrency marker : Z) : Input (list Z) :=
  Incoming (mkMessage "stats" (mkPhase 0 []) p (mkStats concurrency [marker])).

Definition done (p : Z) : Message (list Z) :=
  mkMessage "done" (mkPhase 0 []) p (mkStats 0 []).

Definition unknown : Message (list Z) :=
  mkMessage "heartbeat" (mkPhase 0 []) 100 (mkStats 0 []).

(** [ARTILLERY_WORKERS] set to the empty text; pids 300, 301, ... *)
Definition host_empty : Host := mkHost (Some "") 8 (λ i, 300 + Z.of_nat i).

(** A run with the single worker 100, and one with the workers 200, 201
    and 202. *)
Definition one_worker : Runner (list Z) := run (dist := distributor) host fresh.

Definition three_workers : Runner (list Z) := run (dist := distributor3) host3 fresh.

(** The coordinator after the loop has handled the inputs (as it was, had
    the loop thrown). *)
Definition after (inputs : list (Input (list Z))) (this : Runner (list Z))
    : Runner (list Z) :=
  match process (lib := stats_lib) inputs this with
  | Ok st => st
  | TypeError => this
  end.

(** The run of the single worker, completed. *)
Definition completed : Runner (list Z) := after [Incoming (done 100)] one_worker.

End Demo.

(** Closes a decidable goal on concrete data by evaluating its decision
    procedure. *)
Ltac decide_by_computation := apply (bool_decide_unpack _); vm_compute; exact I.

(** ** Further concrete data *)

Module Sample.

(** A distributor that returns no script. *)
Definition no_distributor : Distributor (list Z) :=
  {| divideWork := λ s n, [] |}.

(** A distributor that returns as many copies of the script as the number
    it is given, read by [ToNumber], and none when that is no number. *)
Definition counting_distributor : Distributor (list Z) :=
  {| divideWork := λ s v,
       match ToNumber v with
       | Some n => replicate (Z.to_nat n) s
       | None => []
       end |}.

(** The entry [run] registers for the child of pid [p] in the runs of
    [Demo]. *)
Definition registered (p : Z) : Worker (list Z) :=
  mkWorker
    (mkChildProcess p
       [mkCommand "run" (mkRunOpts (mkScript (mkConfig 1 []) []) [] [])] false)
    false.

(** That entry once the worker is done. *)
Definition finished (p : Z) : Worker (list Z) :=
  mkWorker (kill (proc (registered p))) true.

(** Messages of the three workers, two of which finish. *)
Definition two_finish : list (Input (list Z)) :=
  [Demo.phaseStarted 0; Demo.snapshot 200 3 1; Demo.phaseStarted 0;
   Demo.snapshot 201 4 2; Tick; Demo.phaseStarted 1; Incoming (Demo.done 200);
   Demo.snapshot 201 2 3; Demo.phaseStarted 0; Tick; Incoming (Demo.done 201)].

(** One interval of snapshots of two workers, in two orders of arrival. *)
Definition interval : list (Z * Stats (list Z)) :=
  [(100, mkStats 3 [1]); (101, mkStats 4 [2]); (100, mkStats 5 [3])].

Definition interval_reordered : list (Z * Stats (list Z)) :=
  [(101, mkStats 4 [2]); (100, mkStats 5 [3]); (100, mkStats 3 [1])].

End Sample.

(** ** Properties *)

Section Properties.
Context {Json : Type} {lib : StatsLib Json} {dist : Distributor Json}.
Implicit Types (this : Runner Json) (m : Message Json) (inputs : list (Input Json)).
Implicit Types (buffer : list (Z * Stats Json)) (log : list (Emitted Json)).

(** *** Aggregate concurrency *)

Lemma maxWorkerConcurrencies_snoc buffer el :
  maxWorkerConcurrencies (buffer ++ [el]) =
  match maxWorkerConcurrencies buffer !! el.1 with
  | Some v => <[el.1 := Z.max v (_concurrency el.2)]> (maxWorkerConcurrencies buffer)
  | None => <[el.1 := _concurrency el.2]> (maxWorkerConcurrencies buffer)
  end.
Proof. unfold maxWorkerConcurrencies. now rewrite foldl_app. Qed.

Lemma concurrencies_of_snoc p buffer el :
  concurrencies_of p (buffer ++ [el]) =
  concurrencies_of p buffer ++ (if decide (el.1 = p) then [_concurrency el.2] else []).
Proof.
  unfold concurrencies_of. rewrite filter_app, !fmap_app. f_equal.
  destruct (decide (el.1 = p)) as [Heq|Hne].
  - now rewrite filter_cons_True by exact Heq.
  - now rewrite filter_cons_False by exact Hne.
Qed.

Lemma worker_maximum_snoc_same buffer el :
  worker_maximum el.1 (buffer ++ [el]) =
  Some (match worker_maximum el.1 buffer with
        | Some v => Z.max v (_concurrency el.2)
        | None => _concurrency el.2
        end).
Proof.
  unfold worker_maximum. rewrite concurrencies_of_snoc, decide_True by reflexivity.
  destruct (concurrencies_of el.1 buffer) as [|c cs]; simpl; [reflexivity|].
  now rewrite foldl_app.
Qed.

Lemma worker_maximum_snoc_other p buffer el :
  el.1 ≠ p → worker_maximum p (buffer ++ [el]) = worker_maximum p buffer.
Proof.
  intros Hne. unfold worker_maximum.
  now rewrite concurrencies_of_snoc, decide_False, app_nil_r by exact Hne.
Qed.

(** The accumulator of the reduce holds, for each pid, that worker's
    maximum, and nothing for a pid with no buffered snapshot. *)
Lemma maxWorkerConcurrencies_lookup buffer p :
  maxWorkerConcurrencies buffer !! p = worker_maximum p buffer.
Proof.
  induction buffer as [|el buffer IH] using rev_ind; [reflexivity|].
  rewrite maxWorkerConcurrencies_snoc.
  destruct (decide (el.1 = p)) as [<-|Hne].
  - rewrite worker_maximum_snoc_same, <- IH.
    destruct (maxWorkerConcurrencies buffer !! el.1); now rewrite lookup_insert_eq.
  - rewrite worker_maximum_snoc_other by exact Hne.
    destruct (maxWorkerConcurrencies buffer !! el.1);
      now rewrite lookup_insert_ne by exact Hne.
Qed.

Lemma worker_maximum_is_Some p buffer :
  is_Some (worker_maximum p buffer) ↔ p ∈ buffer.*1.
Proof.
  unfold worker_maximum, concurrencies_of.
  induction buffer as [|[q s] buffer IH]; simpl.
  - split; [intros [? [=]] | intros ?%elem_of_nil; contradiction].
  - rewrite elem_of_cons. destruct (decide (q = p)) as [->|Hne].
    + rewrite filter_cons_True by reflexivity. simpl. split; eauto.
    + rewrite filter_cons_False by exact Hne. rewrite IH. split; [tauto|].
      intros [Heq|Hin]; [congruence | exact Hin].
Qed.

Lemma L_sum_Permutation (l k : list Z) : l ≡ₚ k → L_sum l = L_sum k.
Proof.
  unfold L_sum. induction 1; simpl; lia.
Qed.

Lemma maxWorkerConcurrencies_to_list buffer :
  map_to_list (maxWorkerConcurrencies buffer) ≡ₚ
  (λ p, (p, default 0 (worker_maximum p buffer))) <$> remove_dups buffer.*1.
Proof.
  apply NoDup_Permutation.
  - apply NoDup_map_to_list.
  - apply NoDup_fmap_2; [intros p q [=]; assumption | apply NoDup_remove_dups].
  - intros [p v]. rewrite elem_of_map_to_list, maxWorkerConcurrencies_lookup.
    rewrite list_elem_of_fmap. split.
    + intros Hv. exists p. rewrite Hv. split; [reflexivity|].
      apply elem_of_remove_dups, worker_maximum_is_Some. eauto.
    + intros (q & [= -> ->] & Hq).
      apply elem_of_remove_dups, worker_maximum_is_Some in Hq.
      destruct Hq as [v ->]. reflexivity.
Qed.

(** [L.sum] adds its elements up. *)
Lemma L_sum_total (l : list Z) : L_sum l = total l.
Proof.
  induction l as [|x l IH]; [reflexivity|].
  change (L_sum (x :: l)) with (x + L_sum l). simpl. now rewrite IH.
Qed.

(** The sum the code takes over the accumulator is the sum, over the
    workers present in the buffer, of each worker's maximum. *)
Lemma aggregate_refines_spec buffer :
  L_sum (L_values (maxWorkerConcurrencies buffer)) = spec_aggregate_concurrency buffer.
Proof.
  unfold L_values, spec_aggregate_concurrency.
  rewrite (L_sum_Permutation _ _
             (fmap_Permutation snd _ _ (maxWorkerConcurrencies_to_list buffer))).
  now rewrite <- list_fmap_compose, L_sum_total.
Qed.

Lemma sendStats_events this :
  events (_sendStats this) = events this ++ [EmitStats (flush_report (_intermediates this))].
Proof. reflexivity. Qed.

Lemma sendStats_intermediates this : _intermediates (_sendStats this) = [].
Proof. reflexivity. Qed.

(** C1: a flush emits one [stats] event; its payload is what [combine]
    makes of the buffered snapshots, except that the concurrency field is
    replaced by [round] (to 1 decimal place) of the sum, over the workers in
    the buffer, of the largest concurrency among that worker's snapshots. *)
Theorem sendStats_concurrency this :
  ∃ combined,
    events (_sendStats this) = events this ++ [EmitStats combined] ∧
    _concurrency combined =
      round (spec_aggregate_concurrency (_intermediates this)) 1 ∧
    measurements combined = measurements (combine (_intermediates this).*2).
Proof.
  exists (flush_report (_intermediates this)). split; [apply sendStats_events|].
  split; [|reflexivity].
  simpl. unfold averageConcurrency. now rewrite aggregate_refines_spec.
Qed.

(** C10: a flush with nothing buffered still emits a [stats] event, the
    combine of no snapshot with concurrency [round 0 1], which is [0] as
    soon as [round] maps [0] to [0]; the buffer stays empty. *)
Theorem sendStats_empty_buffer this :
  _intermediates this = [] →
  events (_sendStats this) =
    events this ++ [EmitStats (mkStats (round 0 1) (measurements (combine [])))] ∧
  _intermediates (_sendStats this) = [] ∧
  (round 0 1 = 0 →
   events (_sendStats this) =
     events this ++ [EmitStats (mkStats 0 (measurements (combine [])))]).
Proof.
  intros Hempty. rewrite sendStats_events, Hempty.
  assert (flush_report (Json := Json) [] = mkStats (round 0 1) (measurements (combine [])))
    as -> by reflexivity.
  split; [reflexivity|]. split; [reflexivity|]. now intros ->.
Qed.

(** *** The message handler, case by case *)

Lemma onWorkerMessage_phaseStarted m this :
  event m = "phaseStarted" →
  _onWorkerMessage m this =
  Ok (if index (phase m) >? _currentPhase this
      then set_currentPhase (index (phase m)) (emit (EmitPhaseStarted (phase m)) this)
      else this).
Proof.
  intros He. unfold _onWorkerMessage. rewrite He. simpl. reflexivity.
Qed.

Lemma onWorkerMessage_stats m this :
  event m = "stats" →
  _onWorkerMessage m this =
  Ok (set_allIntermediates (_allIntermediates this ++ [stats m])
        (set_intermediates (_intermediates this ++ [(pid m, stats m)]) this)).
Proof.
  intros He. unfold _onWorkerMessage. rewrite He. simpl. reflexivity.
Qed.

Lemma onWorkerMessage_done m this :
  event m = "done" →
  _onWorkerMessage m this =
  match _workers this !! pid m with
  | None => TypeError
  | Some worker =>
      let marked :=
        set_workers (<[pid m := mkWorker (kill (proc worker)) true]> (_workers this)) this in
      if _activeWorkerCount marked =? 0
      then Ok (emit (EmitDone (combine (_allIntermediates this))) (_sendStats marked))
      else Ok marked
  end.
Proof.
  intros He. unfold _onWorkerMessage. rewrite He. simpl. reflexivity.
Qed.

Lemma onWorkerMessage_other m this :
  event m ≠ "phaseStarted" → event m ≠ "stats" → event m ≠ "done" →
  _onWorkerMessage m this = Ok this.
Proof.
  intros H1 H2 H3. unfold _onWorkerMessage.
  rewrite (decide_False (P := event m = "phaseStarted")) by exact H1.
  rewrite (decide_False (P := event m = "stats")) by exact H2.
  rewrite (decide_False (P := event m = "done")) by exact H3.
  now destruct (decide (event m = "phaseCompleted")).
Qed.

(** C7: a [phaseCompleted] message, and a message of a kind the handler
    does not know, return normally with the coordinator exactly as it was:
    workers, phase, both buffers and the log of emitted events. *)
Theorem onWorkerMessage_ignored m this :
  event m = "phaseCompleted" ∨
    event m ∉ ["phaseStarted"; "phaseCompleted"; "stats"; "done"] →
  _onWorkerMessage m this = Ok this.
Proof.
  intros [He|Hnot].
  - apply onWorkerMessage_other; rewrite He; discriminate.
  - apply onWorkerMessage_other; intros He; apply Hnot; rewrite He;
      repeat first [apply list_elem_of_here | apply list_elem_of_further].
Qed.

(** C9: a [done] message whose pid is no key of the workers map makes the
    handler throw: the worker it looks up is [undefined]. *)
Theorem onWorkerMessage_done_unknown_pid m this :
  event m = "done" →
  _workers this !! pid m = None →
  _onWorkerMessage m this = TypeError.
Proof.
  intros He Hnone. now rewrite onWorkerMessage_done, Hnone by exact He.
Qed.

(** *** Counting the active workers *)

Lemma count_bounds (workers : gmap Z (Worker Json)) (pids : list Z) (count : Z) :
  count - Z.of_nat (length pids)
  ≤ foldl (λ count pid,
             match workers !! pid with
             | Some worker => if isDone worker then count - 1 else count
             | None => count
             end) count pids
  ≤ count.
Proof.
  revert count. induction pids as [|p pids IH]; intros count; simpl; [lia|].
  destruct (workers !! p) as [w|]; [destruct (isDone w)|];
    match goal with |- _ ≤ foldl _ ?c _ ≤ _ => specialize (IH c) end; lia.
Qed.

Lemma count_all_done (workers : gmap Z (Worker Json)) (pids : list Z) (count : Z) :
  foldl (λ count pid,
           match workers !! pid with
           | Some worker => if isDone worker then count - 1 else count
           | None => count
           end) count pids
  = count - Z.of_nat (length pids)
  ↔ Forall (λ p, ∃ w, workers !! p = Some w ∧ isDone w = true) pids.
Proof.
  revert count. induction pids as [|p pids IH]; intros count; simpl.
  - split; [constructor | lia].
  - rewrite Forall_cons.
    destruct (workers !! p) as [w|] eqn:Hw; [destruct (isDone w) eqn:Hd|].
    + rewrite <- (IH (count - 1)). split.
      * intros Heq. split; [eauto|lia].
      * intros [_ Heq]. lia.
    + pose proof (count_bounds workers pids count). split; [lia|].
      intros [(w' & [= <-] & Hd') _]. congruence.
    + pose proof (count_bounds workers pids count). split; [lia|].
      intros [(w' & [=] & _) _].
Qed.

(** No worker is active exactly when every registered worker is done. *)
Lemma activeWorkerCount_zero this :
  _activeWorkerCount this = 0 ↔
  ∀ p w, _workers this !! p = Some w → isDone w = true.
Proof.
  unfold _activeWorkerCount, Object_keys.
  pose proof (count_all_done (_workers this) (map_to_list (_workers this)).*1
                (Z.of_nat (length (map_to_list (_workers this)).*1))) as Hall.
  rewrite Z.sub_diag in Hall. rewrite Hall, Forall_forall. split.
  - intros Hdone p w Hp.
    destruct (Hdone p) as (w' & Hw' & Hd); [|congruence].
    apply list_elem_of_fmap. exists (p, w). split; [reflexivity|].
    now apply elem_of_map_to_list.
  - intros Hdone p (pw & -> & Hin)%list_elem_of_fmap. destruct pw as [p w].
    apply elem_of_map_to_list in Hin. eauto.
Qed.

(** *** The event loop *)

Lemma process_app inputs1 inputs2 this :
  process (inputs1 ++ inputs2) this =
  match process inputs1 this with
  | Ok mid => process inputs2 mid
  | TypeError => TypeError
  end.
Proof.
  revert this. induction inputs1 as [|i inputs1 IH]; intros this; simpl; [reflexivity|].
  destruct (deliver i this); [apply IH | reflexivity].
Qed.

Lemma process_snoc inputs i this :
  process (inputs ++ [i]) this =
  match process inputs this with
  | Ok mid => deliver i mid
  | TypeError => TypeError
  end.
Proof.
  rewrite process_app. destruct (process inputs this) as [mid|]; [|reflexivity].
  simpl. now destruct (deliver i mid).
Qed.

Lemma deliver_delivered i this after :
  deliver i this = Ok after → delivered i this after.
Proof.
  destruct i as [m|]; simpl.
  - destruct (decide (event m = "phaseStarted")) as [He|Hn1].
    { rewrite onWorkerMessage_phaseStarted by exact He.
      destruct (Z.gtb_spec (index (phase m)) (_currentPhase this)); intros [= <-].
      - eapply delivered_phase; eauto. 
      - eapply delivered_nothing; eauto; rewrite He; discriminate. }
    destruct (decide (event m = "stats")) as [He|Hn2].
    { rewrite onWorkerMessage_stats by exact He. intros [= <-].
      eapply delivered_stats; eauto. }
    destruct (decide (event m = "done")) as [He|Hn3].
    { rewrite onWorkerMessage_done by exact He.
      destruct (_workers this !! pid m) as [worker|] eqn:Hw; [|discriminate].
      simpl. destruct (Z.eqb_spec (_activeWorkerCount
        (set_workers (<[pid m := mkWorker (kill (proc worker)) true]> (_workers this)) this)) 0)
        as [Hz|Hnz]; intros [= <-].
      - eapply delivered_last_done; eauto.
      - eapply delivered_done; eauto. }
    rewrite onWorkerMessage_other by assumption. intros [= <-].
    eapply delivered_nothing; eauto.
  - intros [= <-]. now apply delivered_tick.
Qed.

Lemma process_invariant (P : Runner Json → Prop) :
  (∀ i this after, delivered i this after → P this → P after) →
  ∀ inputs this after, process inputs this = Ok after → P this → P after.
Proof.
  intros Hstep inputs. induction inputs as [|i inputs IH]; intros this after; simpl.
  - now intros [= <-].
  - destruct (deliver i this) as [mid|] eqn:Hd; [|discriminate].
    intros Hrest HP. apply (IH mid after Hrest).
    exact (Hstep i this mid (deliver_delivered _ _ _ Hd) HP).
Qed.

Lemma process_split inputs1 inputs2 this after :
  process (inputs1 ++ inputs2) this = Ok after →
  ∃ mid, process inputs1 this = Ok mid ∧ process inputs2 mid = Ok after.
Proof.
  rewrite process_app. destruct (process inputs1 this) as [mid|]; [eauto | discriminate].
Qed.

(** *** Phases *)

Lemma phase_indices_snoc log e :
  phase_indices (log ++ [e]) =
  phase_indices log ++ match e with EmitPhaseStarted p => [index p] | _ => [] end.
Proof. unfold phase_indices. rewrite omap_app. now destruct e. Qed.

Lemma delivered_phases i this after :
  delivered i this after →
  _currentPhase this ≤ _currentPhase after ∧
  (phases_in_order this → phases_in_order after).
Proof.
  unfold phases_in_order.
  intros [-> -> | m -> He Hlt -> | m -> _ _ -> | m -> He -> 
         | m w -> He Hw marked Hc -> | m w -> He Hw marked Hc ->]; simpl;
    rewrite ?phase_indices_snoc, ?app_nil_r; simpl; rewrite ?app_nil_r;
    try (split; [lia | tauto]).
  split; [lia|]. intros [Hsorted Hbound]. split.
  - apply StronglySorted_app_2; [|exact Hsorted|repeat constructor].
    intros x1 x2 Hx1 ->%list_elem_of_singleton.
    rewrite Forall_forall in Hbound. specialize (Hbound x1 Hx1). lia.
  - apply Forall_app. split; [|repeat constructor; lia].
    eapply Forall_impl; [exact Hbound|]. simpl. intros; lia.
Qed.

Lemma process_currentPhase inputs this after :
  process inputs this = Ok after → _currentPhase this ≤ _currentPhase after.
Proof.
  intros Hp.
  refine (process_invariant (λ st, _currentPhase this ≤ _currentPhase st) _
            inputs this after Hp _); simpl; [|lia].
  intros i a b Hd Ha. destruct (delivered_phases i a b Hd) as [Hle _]. lia.
Qed.

Lemma process_phases_in_order inputs this after :
  process inputs this = Ok after → phases_in_order this → phases_in_order after.
Proof.
  apply process_invariant. intros i a b Hd. apply (delivered_phases i a b Hd).
Qed.

(** *** Starting a run *)

Lemma spawn_all_snoc h this (scripts : list (Script Json)) s :
  spawn_all h this (scripts ++ [s]) =
  spawn h (spawn_all h this scripts) (length scripts) s.
Proof.
  unfold spawn_all. rewrite imap_app, foldl_app. simpl. now rewrite Nat.add_0_r.
Qed.

Lemma spawn_all_frame h this (scripts : list (Script Json)) :
  _script (spawn_all h this scripts) = _script this ∧
  events (spawn_all h this scripts) = events this ∧
  _intermediates (spawn_all h this scripts) = _intermediates this ∧
  _allIntermediates (spawn_all h this scripts) = _allIntermediates this ∧
  _currentPhase (spawn_all h this scripts) = _currentPhase this ∧
  timers (spawn_all h this scripts) = timers this.
Proof.
  induction scripts as [|s scripts IH] using rev_ind; [easy|].
  rewrite spawn_all_snoc. exact IH.
Qed.

(** A worker found in the map after the forks was there before, or is one
    of the children just forked, registered as not done. *)
Lemma spawn_all_lookup h this (scripts : list (Script Json)) q w :
  _workers (spawn_all h this scripts) !! q = Some w →
  _workers this !! q = Some w ∨
  (isDone w = false ∧ ∃ i, (i < length scripts)%nat ∧ q = fork h i).
Proof.
  induction scripts as [|s scripts IH] using rev_ind; [now left|].
  rewrite spawn_all_snoc, length_app. simpl.
  destruct (decide (fork h (length scripts) = q)) as [<-|Hne].
  - rewrite lookup_insert_eq. intros [= <-]. right. split; [reflexivity|].
    exists (length scripts). split; [lia | reflexivity].
  - rewrite lookup_insert_ne by exact Hne. intros Hq.
    destruct (IH Hq) as [Hold | (Hd & i & Hi & ->)]; [now left|].
    right. split; [exact Hd|]. exists i. split; [lia | reflexivity].
Qed.

Lemma spawn_all_dom h this (scripts : list (Script Json)) :
  dom (_workers (spawn_all h this scripts)) =
  dom (_workers this) ∪ list_to_set (fork h <$> seq 0 (length scripts)).
Proof.
  induction scripts as [|s scripts IH] using rev_ind.
  - simpl. now rewrite (right_id_L ∅ (∪)).
  - rewrite spawn_all_snoc, length_app, seq_app, fmap_app, list_to_set_app_L. simpl.
    rewrite dom_insert_L, IH. apply set_eq. intros x.
    rewrite !elem_of_union, elem_of_singleton, elem_of_empty. tauto.
Qed.

Lemma spawn_all_forked h this (scripts : list (Script Json)) i :
  (i < length scripts)%nat →
  ∃ w, _workers (spawn_all h this scripts) !! fork h i = Some w ∧ isDone w = false.
Proof.
  intros Hi.
  assert (fork h i ∈ dom (_workers (spawn_all h this scripts))) as Hin.
  { rewrite spawn_all_dom. apply elem_of_union_r, elem_of_list_to_set, list_elem_of_fmap.
    exists i. split; [reflexivity|]. apply elem_of_seq. lia. }
  apply elem_of_dom in Hin as [w Hw]. exists w. split; [exact Hw|].
  induction scripts as [|s scripts IH] using rev_ind; [simpl in Hi; lia|].
  revert Hw. rewrite spawn_all_snoc, length_app in *. simpl in *.
  destruct (decide (fork h (length scripts) = fork h i)) as [Heq|Hne].
  - rewrite Heq, lookup_insert_eq. now intros [= <-].
  - rewrite lookup_insert_ne by exact Hne. intros Hw. apply IH; [|exact Hw].
    destruct (decide (i = length scripts)) as [->|]; [congruence | lia].
Qed.

Lemma spawn_all_other h this (scripts : list (Script Json)) q :
  (∀ i, (i < length scripts)%nat → fork h i ≠ q) →
  _workers (spawn_all h this scripts) !! q = _workers this !! q.
Proof.
  induction scripts as [|s scripts IH] using rev_ind; [reflexivity|].
  rewrite spawn_all_snoc, length_app. simpl. intros Hq.
  rewrite lookup_insert_ne by (apply Hq; lia). apply IH. intros i Hi. apply Hq. lia.
Qed.

Lemma run_frame h this :
  events (run h this) = events this ∧
  _intermediates (run h this) = _intermediates this ∧
  _allIntermediates (run h this) = _allIntermediates this ∧
  _currentPhase (run h this) = _currentPhase this ∧
  timers (run h this) = timers this ++ [statsInterval (config (_script this)) * 1000].
Proof.
  unfold run. simpl.
  destruct (spawn_all_frame h this (workerScripts h this))
    as (-> & -> & -> & -> & -> & ->).
  easy.
Qed.

Lemma run_workers h this :
  _workers (run h this) = _workers (spawn_all h this (workerScripts h this)).
Proof. reflexivity. Qed.

Lemma length_workerScripts h this :
  length (workerScripts h this) = length (divideWork (_script this) (numWorkers h)).
Proof. unfold workerScripts. apply length_fmap. Qed.

(** Right after [run] on a new coordinator nothing was emitted, both
    buffers are empty and no registered worker is done. *)
Lemma run_createRunner script payload opts h :
  events (run h (createRunner script payload opts)) = [] ∧
  _intermediates (run h (createRunner script payload opts)) = [] ∧
  _allIntermediates (run h (createRunner script payload opts)) = [] ∧
  ∀ q w, _workers (run h (createRunner script payload opts)) !! q = Some w →
         isDone w = false.
Proof.
  destruct (run_frame h (createRunner script payload opts)) as (-> & -> & -> & _).
  repeat split. intros q w Hq. rewrite run_workers in Hq.
  apply spawn_all_lookup in Hq as [Hold|[Hd _]]; [|exact Hd].
  simpl in Hold. now rewrite lookup_empty in Hold.
Qed.

(** *** The loop never stops on messages of known workers *)

Lemma delivered_dom i this after :
  delivered i this after → dom (_workers after) = dom (_workers this).
Proof.
  intros [-> -> | m -> He Hlt -> | m -> _ _ -> | m -> He ->
         | m w -> He Hw marked Hc -> | m w -> He Hw marked Hc ->]; simpl;
    try reflexivity; apply dom_insert_lookup_L; eauto.
Qed.

Lemma done_pids_cons i inputs :
  done_pids (i :: inputs) = done_pids [i] ++ done_pids inputs.
Proof. exact (omap_app _ [i] inputs). Qed.

Lemma done_pids_snoc inputs i :
  done_pids (inputs ++ [i]) = done_pids inputs ++ done_pids [i].
Proof. apply omap_app. Qed.

Lemma done_pids_done m : event m = "done" → done_pids [Incoming m] = [pid m].
Proof. intros He. unfold done_pids. cbn. now rewrite decide_True by exact He. Qed.

Lemma done_pids_not_done m : event m ≠ "done" → done_pids [Incoming m] = [].
Proof. intros He. unfold done_pids. cbn. now rewrite decide_False by exact He. Qed.

Lemma received_snoc_app inputs1 inputs2 :
  received (inputs1 ++ inputs2) = received inputs1 ++ received inputs2.
Proof. apply omap_app. Qed.

Lemma received_snoc inputs i :
  received (inputs ++ [i]) = received inputs ++ received [i].
Proof. apply omap_app. Qed.

Lemma received_stats m : event m = "stats" → received [Incoming m] = [(pid m, stats m)].
Proof. intros He. unfold received. cbn. now rewrite decide_True by exact He. Qed.

Lemma received_not_stats m : event m ≠ "stats" → received [Incoming m] = [].
Proof. intros He. unfold received. cbn. now rewrite decide_False by exact He. Qed.

Lemma deliver_known i this :
  Forall (λ q, q ∈ dom (_workers this)) (done_pids [i]) →
  ∃ after, deliver i this = Ok after.
Proof.
  destruct i as [m|]; cbn [deliver]; [|eauto].
  destruct (decide (event m = "done")) as [He|Hne].
  - rewrite done_pids_done, Forall_singleton, elem_of_dom by exact He. intros [w Hw].
    rewrite onWorkerMessage_done, Hw by exact He. simpl.
    match goal with |- context [if ?b then _ else _] => destruct b end; eauto.
  - intros _. destruct (decide (event m = "phaseStarted")) as [He|Hn1].
    { rewrite onWorkerMessage_phaseStarted by exact He. eauto. }
    destruct (decide (event m = "stats")) as [He|Hn2].
    { rewrite onWorkerMessage_stats by exact He. eauto. }
    rewrite onWorkerMessage_other by assumption. eauto.
Qed.

(** As long as every [done] message names a registered worker, the loop
    handles the whole input without throwing. *)
Lemma process_known inputs this :
  Forall (λ q, q ∈ dom (_workers this)) (done_pids inputs) →
  ∃ after, process inputs this = Ok after.
Proof.
  revert this. induction inputs as [|i inputs IH]; intros this; [simpl; eauto|].
  rewrite done_pids_cons, Forall_app. intros [Hi Hrest].
  destruct (deliver_known i this Hi) as [mid Hmid]. cbn [process]. rewrite Hmid.
  apply IH. now rewrite (delivered_dom _ _ _ (deliver_delivered _ _ _ Hmid)).
Qed.

(** C3: whatever the workers send, in whatever order, the [phaseStarted]
    events handed to the caller carry strictly increasing phase indices, and
    the coordinator's current phase never goes down from one moment of the
    run to a later one.  A [phaseStarted] message whose index is not above
    the current phase changes nothing and emits nothing; one whose index is
    above it is announced and becomes the current phase. *)
Theorem phaseStarted_strictly_increasing script payload opts h inputs :
  Forall (λ q, q ∈ dom (_workers (run h (createRunner script payload opts))))
         (done_pids inputs) →
  (∃ st,
     process inputs (run h (createRunner script payload opts)) = Ok st ∧
     StronglySorted Z.lt (phase_indices (events st)) ∧
     ∀ earlier later,
       inputs = earlier ++ later →
       ∃ mid,
         process earlier (run h (createRunner script payload opts)) = Ok mid ∧
         -1 ≤ _currentPhase mid ≤ _currentPhase st) ∧
  (∀ this m,
     event m = "phaseStarted" → index (phase m) ≤ _currentPhase this →
     _onWorkerMessage m this = Ok this) ∧
  (∀ this m,
     event m = "phaseStarted" → _currentPhase this < index (phase m) →
     ∃ after,
       _onWorkerMessage m this = Ok after ∧
       events after = events this ++ [EmitPhaseStarted (phase m)] ∧
       _currentPhase after = index (phase m)).
Proof.
  intros Hknown. destruct (process_known _ _ Hknown) as [st Hst]. split_and!.
  - exists st. split; [exact Hst|]. split.
    + apply (process_phases_in_order _ _ _ Hst). unfold phases_in_order.
      destruct (run_createRunner script payload opts h) as (-> & _).
      split; constructor.
    + intros earlier later ->. apply process_split in Hst as (mid & Hmid & Hlater).
      exists mid. split; [exact Hmid|].
      apply process_currentPhase in Hmid, Hlater.
      destruct (run_frame h (createRunner script payload opts))
        as (_ & _ & _ & Hcur & _).
      rewrite Hcur in Hmid. simpl in Hmid. lia.
  - intros this m He Hstale. rewrite onWorkerMessage_phaseStarted by exact He.
    destruct (Z.gtb_spec (index (phase m)) (_currentPhase this)); [lia | reflexivity].
  - intros this m He Hfresh. rewrite onWorkerMessage_phaseStarted by exact He.
    destruct (Z.gtb_spec (index (phase m)) (_currentPhase this)); [|lia].
    eexists. split; [reflexivity|]. split; reflexivity.
Qed.

(** *** The two buffers *)

Lemma delivered_allIntermediates i this after :
  delivered i this after →
  _allIntermediates after = _allIntermediates this ++ (received [i]).*2.
Proof.
  intros [-> -> | m -> He Hlt -> | m -> Hns _ -> | m -> He ->
         | m w -> He Hw marked Hc -> | m w -> He Hw marked Hc ->]; simpl;
    rewrite ?(received_stats m), ?(received_not_stats m), ?app_nil_r
      by (assumption || (rewrite He; discriminate));
    reflexivity.
Qed.

Lemma process_allIntermediates inputs this after :
  process inputs this = Ok after →
  _allIntermediates after = _allIntermediates this ++ (received inputs).*2.
Proof.
  revert after. induction inputs as [|i inputs IH] using rev_ind; intros after.
  - simpl. intros [= <-]. now rewrite app_nil_r.
  - rewrite process_snoc. destruct (process inputs this) as [mid|]; [|discriminate].
    intros Hd%deliver_delivered%delivered_allIntermediates.
    now rewrite Hd, (IH mid eq_refl), received_snoc, fmap_app, app_assoc.
Qed.

(** C4: when the [done] message of the last active worker is handled, the
    coordinator flushes once more and then emits [done] with the combine of
    every snapshot received since the run began, those reported by earlier
    flushes included. *)
Theorem done_report_merges_whole_history script payload opts h inputs m st st' :
  process inputs (run h (createRunner script payload opts)) = Ok st →
  event m = "done" →
  _onWorkerMessage m st = Ok st' →
  _activeWorkerCount st' = 0 →
  _allIntermediates st = (received inputs).*2 ∧
  events st' =
    events st ++ [EmitStats (flush_report (_intermediates st));
                  EmitDone (combine (received inputs).*2)].
Proof.
  intros Hst He Hm Hzero.
  assert (_allIntermediates st = (received inputs).*2) as Hall.
  { rewrite (process_allIntermediates _ _ _ Hst).
    now destruct (run_createRunner script payload opts h) as (_ & _ & -> & _). }
  split; [exact Hall|].
  destruct (deliver_delivered (Incoming m) st st' Hm)
    as [[=] | m' [= <-] He' _ _ | m' [= <-] _ Hnd _ | m' [= <-] He' _
       | m' w [= <-] _ Hw marked Hc -> | m' w [= <-] _ Hw marked Hc ->];
    try congruence.
  subst marked. simpl. now rewrite <- app_assoc, Hall.
Qed.

Lemma stats_reports_snoc log e :
  stats_reports (log ++ [e]) =
  stats_reports log ++ match e with EmitStats r => [r] | _ => [] end.
Proof. unfold stats_reports. rewrite omap_app. now destruct e. Qed.

Lemma received_tick : received (Json := Json) [Tick] = [].
Proof. reflexivity. Qed.

(** What the flushes of a stretch of the run reported, batch by batch, and
    what is still pending after it, together are what was pending before it
    followed by what arrived during it, in order of arrival. *)
Lemma process_batches inputs this after :
  process inputs this = Ok after →
  ∃ batches,
    stats_reports (events after) =
      stats_reports (events this) ++ (flush_report <$> batches) ∧
    concat batches ++ _intermediates after = _intermediates this ++ received inputs.
Proof.
  revert after. induction inputs as [|i inputs IH] using rev_ind; intros after.
  - simpl. intros [= <-]. exists []. simpl. now rewrite !app_nil_r.
  - rewrite process_snoc. destruct (process inputs this) as [mid|]; [|discriminate].
    destruct (IH mid eq_refl) as (batches & Hreports & Hpending).
    rewrite received_snoc, app_assoc, <- Hpending.
    intros [-> -> | m -> He Hlt -> | m -> Hns _ -> | m -> He ->
           | m w -> He Hw marked Hc -> | m w -> He Hw marked Hc ->]%deliver_delivered;
      try subst marked; simpl;
      rewrite ?stats_reports_snoc, ?received_tick, ?(received_stats m),
        ?(received_not_stats m), ?app_nil_r
        by (assumption || (rewrite He; discriminate));
      simpl; rewrite ?app_nil_r.
    + exists (batches ++ [_intermediates mid]).
      now rewrite fmap_app, concat_app, Hreports, app_assoc; simpl; rewrite !app_nil_r.
    + now exists batches.
    + now exists batches.
    + exists batches. now rewrite Hreports, app_assoc.
    + now exists batches.
    + exists (batches ++ [_intermediates mid]).
      now rewrite fmap_app, concat_app, Hreports, app_assoc; simpl; rewrite !app_nil_r.
Qed.

(** C5: a flush leaves the pending buffer empty and reports exactly what
    was pending.  Over a run, the snapshots received so far, in order of
    arrival, are the batches reported by the flushes so far, one after the
    other, followed by what is still pending: each snapshot is in one batch
    at most, and what arrives after a flush goes to later batches (or is
    still pending) and never changes the batches already reported. *)
Theorem flush_clears_and_partitions script payload opts h earlier later st :
  process (earlier ++ later) (run h (createRunner script payload opts)) = Ok st →
  (∀ this, _intermediates (_sendStats this) = [] ∧
           events (_sendStats this) =
             events this ++ [EmitStats (flush_report (_intermediates this))]) ∧
  ∃ mid batches batches',
    process earlier (run h (createRunner script payload opts)) = Ok mid ∧
    stats_reports (events mid) = flush_report <$> batches ∧
    concat batches ++ _intermediates mid = received earlier ∧
    stats_reports (events st) = flush_report <$> (batches ++ batches') ∧
    concat (batches ++ batches') ++ _intermediates st = received (earlier ++ later).
Proof.
  intros (mid & Hmid & Hst)%process_split. split; [now intros this|].
  destruct (process_batches _ _ _ Hmid) as (batches & Hr & Hp).
  destruct (process_batches _ _ _ Hst) as (batches' & Hr' & Hp').
  destruct (run_createRunner script payload opts h) as (Hev & Hint & _).
  rewrite Hev in Hr. rewrite Hint in Hp. simpl in Hr, Hp.
  exists mid, batches, batches'. split; [exact Hmid|]. split; [exact Hr|].
  split; [exact Hp|]. split.
  - now rewrite Hr', Hr, fmap_app.
  - now rewrite concat_app, <- app_assoc, Hp', app_assoc, Hp, received_snoc_app.
Qed.

(** *** Completion *)

Lemma done_reports_snoc log e :
  done_reports (log ++ [e]) =
  done_reports log ++ match e with EmitDone r => [r] | _ => [] end.
Proof. unfold done_reports. rewrite omap_app. now destruct e. Qed.

Lemma snoc_eq_middle {A} (l before after : list A) (x y : A) :
  l ++ [x] = before ++ y :: after →
  (after = [] ∧ before = l ∧ y = x) ∨
  (∃ after', after = after' ++ [x] ∧ l = before ++ y :: after').
Proof.
  destruct after as [|z after _] using rev_ind.
  - intros [-> ->]%app_inj_tail. now left.
  - change (before ++ y :: after ++ [z]) with (before ++ (y :: after) ++ [z]).
    rewrite app_assoc. intros [-> ->]%app_inj_tail. right. now exists after.
Qed.

Lemma flushed_before_done_nil : flushed_before_done (Json := Json) [].
Proof. intros [|? ?] ? ? [=]. Qed.

Lemma flushed_before_done_snoc log e :
  (∀ r, e ≠ EmitDone r) →
  flushed_before_done log → flushed_before_done (log ++ [e]).
Proof.
  intros He Hlog before report after
    [(_ & _ & Heq) | (after' & _ & ->)]%snoc_eq_middle.
  - now destruct (He report).
  - exact (Hlog before report after' eq_refl).
Qed.

Lemma flushed_before_done_flush_done log combined report :
  flushed_before_done log →
  flushed_before_done ((log ++ [EmitStats combined]) ++ [EmitDone report]).
Proof.
  intros Hlog before report' after
    [(_ & -> & _) | (after' & _ & Heq)]%snoc_eq_middle.
  - eauto.
  - exact (flushed_before_done_snoc log (EmitStats combined) ltac:(discriminate) Hlog
             before report' after' Heq).
Qed.

Lemma completion_tracked_frame registered inputs this after :
  _workers after = _workers this →
  (events after = events this ∨
   ∃ e, (∀ r, e ≠ EmitDone r) ∧ events after = events this ++ [e]) →
  completion_tracked registered inputs this →
  completion_tracked registered inputs after.
Proof.
  unfold completion_tracked. intros -> [-> | (e & He & ->)]; [easy|].
  intros (Hdom & Hdone & Hle & Hiff & Hflushed).
  assert (done_reports (events this ++ [e]) = done_reports (events this)) as ->.
  { rewrite done_reports_snoc. destruct e; rewrite ?app_nil_r; try reflexivity.
    now destruct (He report). }
  split_and!; try assumption. now apply flushed_before_done_snoc.
Qed.

Lemma completion_tracked_same_done registered inputs inputs' this :
  done_pids inputs' = done_pids inputs →
  completion_tracked registered inputs this →
  completion_tracked registered inputs' this.
Proof. unfold completion_tracked. now intros ->. Qed.

Lemma completion_tracked_step registered inputs i this after :
  Forall (λ q, q ∈ registered) (done_pids (inputs ++ [i])) →
  NoDup (done_pids (inputs ++ [i])) →
  completion_tracked registered inputs this →
  delivered i this after →
  completion_tracked registered (inputs ++ [i]) after.
Proof.
  intros Hknown Hnodup Htracked.
  pose proof Htracked as (Hdom & Hdone & Hle & Hiff & Hflushed).
  intros [-> -> | m -> He Hlt -> | m -> Hns Hnd -> | m -> He ->
         | m w -> He Hw marked Hc -> | m w -> He Hw marked Hc ->];
    try (apply (completion_tracked_same_done registered inputs);
         [rewrite done_pids_snoc;
          first [ rewrite done_pids_not_done
                    by first [assumption | rewrite He; discriminate]
                | change (done_pids (Json := Json) [Tick]) with (@nil Z) ];
          apply app_nil_r |]).
  - (* a tick *)
    eapply completion_tracked_frame; [| |exact Htracked]; [reflexivity|].
    right. eexists. split; [|reflexivity]. discriminate.
  - (* a phase is announced *)
    eapply completion_tracked_frame; [| |exact Htracked]; [reflexivity|].
    right. eexists. split; [|reflexivity]. discriminate.
  - (* nothing happens *)
    exact Htracked.
  - (* a snapshot is buffered *)
    eapply completion_tracked_frame; [| |exact Htracked]; [reflexivity|].
    now left.
  - (* a worker is done, others are not *)
    unfold completion_tracked. rewrite done_pids_snoc in Hknown, Hnodup |- *.
    rewrite (done_pids_done m He) in *.
    apply NoDup_app in Hnodup as (_ & Hfresh & _).
    assert (pid m ∉ done_pids inputs) as Hnew
      by (intros Hin; apply (Hfresh _ Hin), list_elem_of_here).
    assert (done_reports (events this) = []) as Hnone.
    { destruct (done_reports (events this)) as [|r rs] eqn:Hr; [reflexivity|].
      destruct Hiff as [Hiff _]. destruct Hiff as [_ Hall]; [discriminate|].
      destruct Hnew. apply Hall. rewrite <- Hdom. apply elem_of_dom. eauto. }
    assert (∀ q w', _workers marked !! q = Some w' →
                    isDone w' = true ↔ q ∈ done_pids inputs ++ [pid m]) as Hdone'.
    { intros q w'. subst marked. simpl. rewrite elem_of_app, list_elem_of_singleton.
      destruct (decide (pid m = q)) as [<-|Hne].
      - rewrite lookup_insert_eq. intros [= <-]. simpl. tauto.
      - rewrite lookup_insert_ne by exact Hne. intros Hq.
        rewrite (Hdone q w' Hq). split; [tauto|]. intros [?|?]; [assumption | congruence]. }
    split; [subst marked; simpl; rewrite dom_insert_lookup_L; eauto|].
    split; [exact Hdone'|]. subst marked. simpl. rewrite Hnone in *.
    split; [simpl; lia|]. split; [|assumption].
    split; [congruence|]. intros [_ Hall]. destruct Hc.
    apply activeWorkerCount_zero. intros q w' Hq. apply (Hdone' q w' Hq), Hall.
    rewrite <- Hdom. simpl in Hq.
    apply elem_of_dom. destruct (decide (pid m = q)) as [<-|Hne]; [eauto|].
    rewrite lookup_insert_ne in Hq by exact Hne. eauto.
  - (* the last worker is done *)
    unfold completion_tracked. rewrite done_pids_snoc in Hknown, Hnodup |- *.
    rewrite (done_pids_done m He) in *.
    apply NoDup_app in Hnodup as (_ & Hfresh & _).
    assert (pid m ∉ done_pids inputs) as Hnew
      by (intros Hin; apply (Hfresh _ Hin), list_elem_of_here).
    assert (done_reports (events this) = []) as Hnone.
    { destruct (done_reports (events this)) as [|r rs] eqn:Hr; [reflexivity|].
      destruct Hiff as [Hiff _]. destruct Hiff as [_ Hall]; [discriminate|].
      destruct Hnew. apply Hall. rewrite <- Hdom. apply elem_of_dom. eauto. }
    assert (∀ q w', _workers marked !! q = Some w' →
                    isDone w' = true ↔ q ∈ done_pids inputs ++ [pid m]) as Hdone'.
    { intros q w'. subst marked. simpl. rewrite elem_of_app, list_elem_of_singleton.
      destruct (decide (pid m = q)) as [<-|Hne].
      - rewrite lookup_insert_eq. intros [= <-]. simpl. tauto.
      - rewrite lookup_insert_ne by exact Hne. intros Hq.
        rewrite (Hdone q w' Hq). split; [tauto|]. intros [?|?]; [assumption | congruence]. }
    assert (dom (_workers marked) = registered) as Hdom'
      by (subst marked; simpl; rewrite dom_insert_lookup_L; eauto).
    split; [exact Hdom'|]. split; [exact Hdone'|].
    assert (events (emit (EmitDone (combine (_allIntermediates this))) (_sendStats marked))
            = (events this ++ [EmitStats (flush_report (_intermediates this))])
              ++ [EmitDone (combine (_allIntermediates this))]) as -> by reflexivity.
    rewrite !done_reports_snoc, Hnone. simpl.
    split; [lia|]. split; [|now apply flushed_before_done_flush_done].
    split; [|discriminate]. intros _. split.
    + intros Hempty.
      assert (pid m ∈ registered) as Hin by (rewrite <- Hdom; apply elem_of_dom; eauto).
      rewrite Hempty in Hin. now apply not_elem_of_empty in Hin.
    + intros q Hq. rewrite <- Hdom' in Hq. apply elem_of_dom in Hq as [w' Hq].
      apply (Hdone' q w' Hq). exact (proj1 (activeWorkerCount_zero marked) Hc q w' Hq).
Qed.

Lemma process_completion_tracked registered inputs this :
  completion_tracked registered [] this →
  Forall (λ q, q ∈ registered) (done_pids inputs) →
  NoDup (done_pids inputs) →
  ∃ after, process inputs this = Ok after ∧ completion_tracked registered inputs after.
Proof.
  intros Hstart. induction inputs as [|i inputs IH] using rev_ind; intros Hknown Hnodup.
  - exists this. split; [reflexivity | exact Hstart].
  - pose proof Hknown as Hknown'. pose proof Hnodup as Hnodup'.
    rewrite done_pids_snoc in Hknown', Hnodup'.
    apply Forall_app in Hknown' as [Hk1 Hk2]. apply NoDup_app in Hnodup' as (Hn1 & _ & _).
    destruct (IH Hk1 Hn1) as (mid & Hmid & Htracked).
    assert (∃ after, deliver i mid = Ok after) as [after Hafter].
    { apply deliver_known. destruct Htracked as [-> _]. exact Hk2. }
    exists after. rewrite process_snoc, Hmid. split; [exact Hafter|].
    exact (completion_tracked_step registered inputs i mid after Hknown Hnodup Htracked
             (deliver_delivered _ _ _ Hafter)).
Qed.

(** C2 (amended): in a run where every [done] message names a registered
    worker and no worker sends [done] twice, the loop does not throw, [done]
    is emitted at most once, it has been emitted exactly if the run has a
    worker and every registered worker has sent [done], and it comes right
    after the [stats] event of a final flush. *)
Theorem done_at_most_once_after_all_workers script payload opts h inputs :
  Forall (λ q, q ∈ dom (_workers (run h (createRunner script payload opts))))
         (done_pids inputs) →
  NoDup (done_pids inputs) →
  ∃ st,
    process inputs (run h (createRunner script payload opts)) = Ok st ∧
    (length (done_reports (events st)) ≤ 1)%nat ∧
    (done_reports (events st) ≠ [] ↔
       dom (_workers (run h (createRunner script payload opts))) ≠ ∅ ∧
       ∀ q, q ∈ dom (_workers (run h (createRunner script payload opts))) →
            q ∈ done_pids inputs) ∧
    flushed_before_done (events st).
Proof.
  intros Hknown Hnodup.
  destruct (process_completion_tracked
              (dom (_workers (run h (createRunner script payload opts))))
              inputs (run h (createRunner script payload opts)))
    as (st & Hst & _ & _ & Hle & Hiff & Hflushed); try assumption.
  - destruct (run_createRunner script payload opts h) as (Hev & _ & _ & Hnot).
    split; [reflexivity|]. rewrite Hev. split.
    + intros q w Hq. rewrite (Hnot q w Hq). split; [discriminate|].
      intros Hin. now apply elem_of_nil in Hin.
    + split; [simpl; lia|]. split; [|apply flushed_before_done_nil].
      split; [intros Hne; now destruct Hne|].
      intros [Hne Hall]. apply set_choose_L in Hne as [q Hq].
      specialize (Hall q Hq). now apply elem_of_nil in Hall.
  - eauto.
Qed.

(** *** [run] *)

Lemma numWorkers_unfold h :
  numWorkers h =
  match ARTILLERY_WORKERS h with
  | Some s => if String.eqb s "" then JsNum 1 else JsStr s
  | None => JsNum 1
  end.
Proof.
  unfold numWorkers, js_or. destruct (ARTILLERY_WORKERS h) as [s|]; simpl; [|reflexivity].
  destruct (String.eqb s "") eqn:Hempty; simpl; rewrite ?Hempty; reflexivity.
Qed.

(** C6 (amended): the number of workers [run] registers on a new
    coordinator is the pool size read from [ARTILLERY_WORKERS] when the
    variable is set to a non-empty value (here: one that writes a number in
    decimal digits), and 1 when it is unset or empty; the pool size handed
    to the distributor is that value itself, respectively the number 1, and
    the number of cores plays no part in it.  The distributor is taken to
    return one script per worker of the count it is given, and the children
    forked to have distinct pids. *)
Theorem numWorkers_from_environment h script payload opts :
  distributes_by_count dist →
  NoDup (fork h <$> seq 0 (length (divideWork script (numWorkers h)))) →
  (∀ s, ARTILLERY_WORKERS h = Some s → s ≠ "" → numWorkers h = JsStr s) ∧
  (ARTILLERY_WORKERS h = None ∨ ARTILLERY_WORKERS h = Some "" →
   numWorkers h = JsNum 1) ∧
  (∀ cpus, numWorkers (mkHost (ARTILLERY_WORKERS h) cpus (fork h)) = numWorkers h) ∧
  (∀ s n, ARTILLERY_WORKERS h = Some s → s ≠ "" → ToNumber (JsStr s) = Some n →
          size (_workers (run h (createRunner script payload opts))) = Z.to_nat n) ∧
  (ARTILLERY_WORKERS h = None ∨ ARTILLERY_WORKERS h = Some "" →
   size (_workers (run h (createRunner script payload opts))) = 1%nat).
Proof.
  intros Hdist Hnodup.
  assert (∀ s, ARTILLERY_WORKERS h = Some s → s ≠ "" → numWorkers h = JsStr s) as Hset.
  { intros s Hs Hne. rewrite numWorkers_unfold, Hs.
    now apply String.eqb_neq in Hne as ->. }
  assert (ARTILLERY_WORKERS h = None ∨ ARTILLERY_WORKERS h = Some "" →
          numWorkers h = JsNum 1) as Hunset.
  { rewrite numWorkers_unfold. now intros [-> | ->]. }
  assert (size (_workers (run h (createRunner script payload opts))) =
          length (divideWork script (numWorkers h))) as Hsize.
  { rewrite <- size_dom, run_workers, spawn_all_dom, length_workerScripts. simpl.
    rewrite dom_empty_L, (left_id_L ∅ (∪)), size_list_to_set by exact Hnodup.
    now rewrite length_fmap, length_seq. }
  split_and!; try assumption.
  - intros cpus. now rewrite !numWorkers_unfold.
  - intros s n Hs Hne Hn. rewrite Hsize. apply Hdist. now rewrite (Hset s Hs Hne).
  - intros Hnone. rewrite Hsize. apply (Hdist script (numWorkers h) 1).
    now rewrite (Hunset Hnone).
Qed.

(** C8 (amended): [run] is not guarded by any state of the coordinator.
    On every coordinator, new, running or completed, it leaves the log, the
    buffers and the phase alone, registers one more timer, registers every
    child it forks as a worker that is not done and leaves the other
    workers as they were; so after it at least one worker is active as soon
    as the distributor returns a script.  Only [run] does that: handling an
    input never turns a done worker into one that is not done. *)
Theorem run_is_not_guarded h this :
  events (run h this) = events this ∧
  _intermediates (run h this) = _intermediates this ∧
  _allIntermediates (run h this) = _allIntermediates this ∧
  _currentPhase (run h this) = _currentPhase this ∧
  timers (run h this) = timers this ++ [statsInterval (config (_script this)) * 1000] ∧
  (∀ i, (i < length (divideWork (_script this) (numWorkers h)))%nat →
        ∃ w, _workers (run h this) !! fork h i = Some w ∧ isDone w = false) ∧
  (∀ q, (∀ i, (i < length (divideWork (_script this) (numWorkers h)))%nat →
              fork h i ≠ q) →
        _workers (run h this) !! q = _workers this !! q) ∧
  (divideWork (_script this) (numWorkers h) ≠ [] → _activeWorkerCount (run h this) ≠ 0) ∧
  (∀ i after q w,
     deliver i this = Ok after →
     _workers this !! q = Some w → isDone w = true →
     ∃ w', _workers after !! q = Some w' ∧ isDone w' = true).
Proof.
  destruct (run_frame h this) as (Hev & Hint & Hall & Hcur & Htimers).
  split_and!; try assumption.
  - intros i Hi. rewrite run_workers. apply spawn_all_forked.
    now rewrite length_workerScripts.
  - intros q Hq. rewrite run_workers. apply spawn_all_other.
    now rewrite length_workerScripts.
  - intros Hscripts Hzero.
    destruct (spawn_all_forked h this (workerScripts h this) 0%nat) as (w & Hw & Hd).
    { rewrite length_workerScripts.
      destruct (divideWork (_script this) (numWorkers h)); [congruence | simpl; lia]. }
    rewrite <- run_workers in Hw.
    pose proof (proj1 (activeWorkerCount_zero (run h this)) Hzero _ _ Hw). congruence.
  - intros i after q w
      [-> -> | m -> He Hlt -> | m -> Hns Hnd -> | m -> He ->
      | m w0 -> He Hw marked Hc -> | m w0 -> He Hw marked Hc ->]%deliver_delivered
      Hq Hd; try subst marked; simpl; eauto;
      (destruct (decide (pid m = q)) as [<-|Hne];
       [rewrite lookup_insert_eq | rewrite lookup_insert_ne by exact Hne]; eauto).
Qed.

End Properties.

(** ** Further properties *)

Section MoreProperties.
Context {Json : Type} {lib : StatsLib Json} {dist : Distributor Json}.
Implicit Types (this : Runner Json) (m : Message Json) (inputs : list (Input Json)).
Implicit Types (buffer : list (Z * Stats Json)) (log : list (Emitted Json)).
Implicit Types (workers : gmap Z (Worker Json)).

(** *** The count of active workers *)

Lemma count_active workers (entries : list (Z * Worker Json)) (count : Z) :
  Forall (λ entry, workers !! entry.1 = Some entry.2) entries →
  foldl (λ count pid,
           match workers !! pid with
           | Some worker => if isDone worker then count - 1 else count
           | None => count
           end) count entries.*1
  = count - Z.of_nat (length entries)
    + Z.of_nat (length (filter (λ entry, isDone entry.2 = false) entries)).
Proof.
  revert count. induction entries as [|[q w] entries IH]; intros count Hall; simpl.
  - lia.
  - apply Forall_cons in Hall as [Hq Hall]. simpl in Hq. rewrite Hq, (IH _ Hall).
    destruct (isDone w) eqn:Hd.
    + rewrite filter_cons_False by (simpl; congruence). lia.
    + rewrite filter_cons_True by exact Hd. simpl. lia.
Qed.

Lemma activeWorkerCount_length this :
  _activeWorkerCount this = Z.of_nat (length (active_workers (_workers this))).
Proof.
  unfold _activeWorkerCount, Object_keys, active_workers.
  rewrite count_active, length_fmap; [lia|].
  apply Forall_forall. intros [q w] Hin. now apply elem_of_map_to_list.
Qed.

Lemma active_workers_mark workers q w (w' : Worker Json) :
  workers !! q = Some w →
  (length (active_workers (<[q := w']> workers)) +
     (if isDone w then 0 else 1) =
   length (active_workers workers) + (if isDone w' then 0 else 1))%nat.
Proof.
  intros Hq. unfold active_workers.
  rewrite <- (insert_delete_eq workers q w').
  rewrite (map_to_list_insert (delete q workers) q w') by apply lookup_delete_eq.
  rewrite <- (map_to_list_delete workers q w Hq).
  rewrite !filter_cons.
  repeat case_decide; simpl in *; destruct (isDone w), (isDone w');
    simpl; try congruence; lia.
Qed.

(** X1: [_activeWorkerCount] is the number of registered workers that are
    not done; it is never negative and never above the number of workers. *)
Theorem activeWorkerCount_counts_active this :
  _activeWorkerCount this = Z.of_nat (length (active_workers (_workers this))) ∧
  0 ≤ _activeWorkerCount this ≤ Z.of_nat (size (_workers this)).
Proof.
  rewrite activeWorkerCount_length. split; [reflexivity|]. split; [lia|].
  unfold active_workers. rewrite <- (length_map_to_list (_workers this)).
  pose proof (length_filter (λ entry : Z * Worker Json, isDone entry.2 = false)
                (map_to_list (_workers this))).
  lia.
Qed.

(** X2: a [done] message of a registered worker is handled without
    throwing; it lowers the count of active workers by one when that worker
    was not done yet, and leaves the count as it is when the worker was done
    already. *)
Theorem done_lowers_activeWorkerCount m this w :
  event m = "done" →
  _workers this !! pid m = Some w →
  ∃ after,
    _onWorkerMessage m this = Ok after ∧
    _activeWorkerCount after = _activeWorkerCount this - (if isDone w then 0 else 1).
Proof.
  intros He Hw. rewrite onWorkerMessage_done, Hw by exact He. simpl.
  pose proof (active_workers_mark (_workers this) (pid m) w
                (mkWorker (kill (proc w)) true) Hw) as Hmark. simpl in Hmark.
  assert (_activeWorkerCount
            (set_workers (<[pid m := mkWorker (kill (proc w)) true]> (_workers this)) this)
          = _activeWorkerCount this - (if isDone w then 0 else 1)) as Hcount.
  { rewrite !activeWorkerCount_length. simpl. destruct (isDone w); lia. }
  match goal with |- context [if ?b then _ else _] => destruct b end;
    eexists; (split; [reflexivity|]); [|exact Hcount].
  rewrite <- Hcount. rewrite !activeWorkerCount_length. reflexivity.
Qed.

Lemma delivered_activeWorkerCount i this after :
  delivered i this after → _activeWorkerCount after ≤ _activeWorkerCount this.
Proof.
  intros [-> -> | m -> He Hlt -> | m -> Hns Hnd -> | m -> He ->
         | m w -> He Hw marked Hc -> | m w -> He Hw marked Hc ->];
    try subst marked; rewrite !activeWorkerCount_length; simpl; try lia;
    pose proof (active_workers_mark (_workers this) (pid m) w
                  (mkWorker (kill (proc w)) true) Hw) as Hmark;
    simpl in Hmark; destruct (isDone w); lia.
Qed.

(** X3: however many messages and ticks are handled, the count of active
    workers never goes up. *)
Theorem activeWorkerCount_never_increases inputs this after :
  process inputs this = Ok after →
  _activeWorkerCount after ≤ _activeWorkerCount this.
Proof.
  intros Hp.
  refine (process_invariant (λ st, _activeWorkerCount st ≤ _activeWorkerCount this) _
            inputs this after Hp _); simpl; [|lia].
  intros i a b Hd Ha. pose proof (delivered_activeWorkerCount i a b Hd). lia.
Qed.

(** *** When the loop throws *)

Lemma deliver_Ok_known i this after :
  deliver i this = Ok after →
  Forall (λ q, q ∈ dom (_workers this)) (done_pids [i]).
Proof.
  intros [-> -> | m -> He Hlt -> | m -> Hns Hnd -> | m -> He ->
         | m w -> He Hw marked Hc -> | m w -> He Hw marked Hc ->]%deliver_delivered;
    rewrite ?(done_pids_done m), ?(done_pids_not_done m)
      by first [assumption | rewrite He; discriminate];
    first [ solve [constructor]
          | apply Forall_singleton, elem_of_dom; eauto ].
Qed.

(** X4: a sequence of inputs in which some [done] message carries a pid
    that is no key of the workers map makes the loop throw; and whenever
    the loop handles a sequence to the end, every [done] message in it named
    a registered worker and the set of registered pids is as it was. *)
Theorem process_throws_on_unknown_done inputs this :
  (¬ Forall (λ q, q ∈ dom (_workers this)) (done_pids inputs) →
   process inputs this = TypeError) ∧
  (∀ after, process inputs this = Ok after →
            Forall (λ q, q ∈ dom (_workers this)) (done_pids inputs) ∧
            dom (_workers after) = dom (_workers this)).
Proof.
  assert (∀ after, process inputs this = Ok after →
            Forall (λ q, q ∈ dom (_workers this)) (done_pids inputs) ∧
            dom (_workers after) = dom (_workers this)) as Hok.
  { revert this. induction inputs as [|i inputs IH]; intros this after; simpl.
    - intros [= <-]. split; [constructor | reflexivity].
    - destruct (deliver i this) as [mid|] eqn:Hd; [|discriminate].
      intros Hrest. destruct (IH mid after Hrest) as [Hknown Hdom].
      pose proof (delivered_dom _ _ _ (deliver_delivered _ _ _ Hd)) as Hmid.
      rewrite Hmid in Hknown, Hdom. split; [|exact Hdom].
      rewrite done_pids_cons. apply Forall_app. split; [|exact Hknown].
      exact (deliver_Ok_known _ _ _ Hd). }
  split; [|exact Hok].
  intros Hnot. destruct (process inputs this) as [after|] eqn:Hp; [|reflexivity].
  destruct Hnot. exact (proj1 (Hok after eq_refl)).
Qed.

(** *** The workers map *)

Lemma spawn_all_payload h this (scripts : list (Script Json)) :
  _payload (spawn_all h this scripts) = _payload this ∧
  _opts (spawn_all h this scripts) = _opts this.
Proof.
  induction scripts as [|s scripts IH] using rev_ind; [easy|].
  rewrite spawn_all_snoc. exact IH.
Qed.

Lemma spawn_all_registered h this (scripts : list (Script Json)) :
  Forall (λ s, statsInterval (config s) = 1) scripts →
  (∀ q w, _workers this !! q = Some w →
          registered_by_run (_payload this) (_opts this) q w) →
  ∀ q w, _workers (spawn_all h this scripts) !! q = Some w →
         registered_by_run (_payload this) (_opts this) q w.
Proof.
  intros Hone Hold. induction scripts as [|s scripts IH] using rev_ind; [exact Hold|].
  apply Forall_app in Hone as [Hone Hs]. rewrite Forall_singleton in Hs.
  intros q w. rewrite spawn_all_snoc. simpl.
  destruct (spawn_all_payload h this scripts) as [-> ->].
  destruct (decide (fork h (length scripts) = q)) as [<-|Hne].
  - rewrite lookup_insert_eq. intros [= <-]. unfold registered_by_run. simpl.
    split_and!; [reflexivity | reflexivity |]. exists s. split; [reflexivity | exact Hs].
  - rewrite lookup_insert_ne by exact Hne. now apply IH.
Qed.

Lemma delivered_registered payload opts i this after :
  delivered i this after →
  (∀ q w, _workers this !! q = Some w → registered_by_run payload opts q w) →
  ∀ q w, _workers after !! q = Some w → registered_by_run payload opts q w.
Proof.
  intros [-> -> | m -> He Hlt -> | m -> Hns Hnd -> | m -> He ->
         | m w0 -> He Hw marked Hc -> | m w0 -> He Hw marked Hc ->] Hold;
    try subst marked; simpl; try exact Hold;
    (intros q w; destruct (decide (pid m = q)) as [<-|Hne];
     [rewrite lookup_insert_eq; intros [= <-];
      destruct (Hold _ _ Hw) as (Hpid & _ & Hsent); unfold registered_by_run; simpl;
      split_and!; [exact Hpid | reflexivity | exact Hsent]
     | rewrite lookup_insert_ne by exact Hne; apply Hold]).
Qed.

Lemma delivered_done_iff inputs i this after :
  delivered i this after →
  (∀ q w, _workers this !! q = Some w → isDone w = true ↔ q ∈ done_pids inputs) →
  ∀ q w, _workers after !! q = Some w →
         isDone w = true ↔ q ∈ done_pids (inputs ++ [i]).
Proof.
  rewrite done_pids_snoc.
  intros [-> -> | m -> He Hlt -> | m -> Hns Hnd -> | m -> He ->
         | m w0 -> He Hw marked Hc -> | m w0 -> He Hw marked Hc ->] Hold;
    try subst marked;
    rewrite ?(done_pids_done m), ?(done_pids_not_done m)
      by first [assumption | rewrite He; discriminate];
    try (change (done_pids (Json := Json) [Tick]) with (@nil Z));
    rewrite ?app_nil_r; simpl; try exact Hold;
    (intros q w; rewrite elem_of_app, list_elem_of_singleton;
     destruct (decide (pid m = q)) as [<-|Hne];
     [rewrite lookup_insert_eq; intros [= <-]; simpl; tauto
     | rewrite lookup_insert_ne by exact Hne; intros Hq; rewrite (Hold q w Hq);
       split; [tauto | intros [?|?]; [assumption | congruence]]]).
Qed.

Lemma process_done_iff inputs this after :
  process inputs this = Ok after →
  (∀ q w, _workers this !! q = Some w → isDone w = false) →
  ∀ q w, _workers after !! q = Some w → isDone w = true ↔ q ∈ done_pids inputs.
Proof.
  intros Hp Hnone. revert after Hp.
  induction inputs as [|i inputs IH] using rev_ind; intros after.
  - simpl. intros [= <-] q w Hq. rewrite (Hnone q w Hq). split; [discriminate|].
    intros Hin. now apply elem_of_nil in Hin.
  - rewrite process_snoc. destruct (process inputs this) as [mid|]; [|discriminate].
    intros Hd%deliver_delivered. exact (delivered_done_iff inputs i mid after Hd (IH mid eq_refl)).
Qed.

(** X5: throughout a run the workers map keeps the keys [run] gave it, and
    every entry stays as [run] and the handler make it: under the pid of its
    own process, sent the one [run] command with the coordinator's payload
    and options and a script whose [statsInterval] is 1, killed exactly if
    done, and done exactly if a [done] message with its pid has arrived. *)
Theorem workers_stay_registered script payload opts h inputs st :
  process inputs (run h (createRunner script payload opts)) = Ok st →
  dom (_workers st) = dom (_workers (run h (createRunner script payload opts))) ∧
  ∀ q w, _workers st !! q = Some w →
         registered_by_run payload opts q w ∧
         (isDone w = true ↔ q ∈ done_pids inputs).
Proof.
  intros Hst. split.
  - refine (process_invariant
              (λ st, dom (_workers st)
                     = dom (_workers (run h (createRunner script payload opts)))) _
              inputs _ st Hst eq_refl).
    intros i a b Hd Ha. now rewrite (delivered_dom i a b Hd).
  - intros q w Hq. split.
    + refine (process_invariant
                (λ st, ∀ q w, _workers st !! q = Some w →
                              registered_by_run payload opts q w) _
                inputs _ st Hst _ q w Hq).
      * intros i a b Hd. exact (delivered_registered payload opts i a b Hd).
      * rewrite run_workers.
        apply (spawn_all_registered h (createRunner script payload opts)).
        -- unfold workerScripts. apply Forall_fmap, Forall_forall. now intros s _.
        -- simpl. intros q' w' Hq'. now rewrite lookup_empty in Hq'.
    + apply (process_done_iff inputs _ st Hst); [|exact Hq].
      exact (proj2 (proj2 (proj2 (run_createRunner script payload opts h)))).
Qed.

(** *** The current phase *)

Lemma started_cons i inputs : started (i :: inputs) = started [i] ++ started inputs.
Proof. exact (omap_app _ [i] inputs). Qed.

Lemma started_phaseStarted m :
  event m = "phaseStarted" → started [Incoming m] = [index (phase m)].
Proof. intros He. unfold started. cbn. now rewrite decide_True by exact He. Qed.

Lemma started_other m : event m ≠ "phaseStarted" → started [Incoming m] = [].
Proof. intros He. unfold started. cbn. now rewrite decide_False by exact He. Qed.

Lemma new_highs_app current (l k : list Z) :
  new_highs current (l ++ k) =
  new_highs current l ++ new_highs (foldl Z.max current l) k.
Proof.
  revert current. induction l as [|x l IH]; intros current; simpl; [reflexivity|].
  destruct (Z.gtb_spec x current).
  - rewrite IH. now replace (Z.max current x) with x by lia.
  - rewrite IH. now replace (Z.max current x) with current by lia.
Qed.

Lemma deliver_currentPhase i this after :
  deliver i this = Ok after →
  _currentPhase after = foldl Z.max (_currentPhase this) (started [i]) ∧
  phase_indices (events after) =
    phase_indices (events this) ++ new_highs (_currentPhase this) (started [i]).
Proof.
  destruct i as [m|]; cbn [deliver].
  - destruct (decide (event m = "phaseStarted")) as [He|Hn1].
    { rewrite onWorkerMessage_phaseStarted, started_phaseStarted by exact He.
      intros [= <-]. simpl.
      destruct (Z.gtb_spec (index (phase m)) (_currentPhase this)); simpl.
      - rewrite phase_indices_snoc. split; [lia | reflexivity].
      - rewrite app_nil_r. split; [lia | reflexivity]. }
    rewrite started_other by exact Hn1. simpl. rewrite app_nil_r.
    destruct (decide (event m = "stats")) as [He|Hn2].
    { rewrite onWorkerMessage_stats by exact He. now intros [= <-]. }
    destruct (decide (event m = "done")) as [He|Hn3].
    { rewrite onWorkerMessage_done by exact He.
      destruct (_workers this !! pid m) as [w|]; [|discriminate]. simpl.
      match goal with |- context [if ?b then _ else _] => destruct b end;
        intros [= <-]; simpl; [|easy].
      now rewrite !phase_indices_snoc, !app_nil_r. }
    rewrite onWorkerMessage_other by assumption. now intros [= <-].
  - intros [= <-]. simpl. now rewrite phase_indices_snoc, !app_nil_r.
Qed.

(** X6: after any inputs the current phase is the largest of the phase the
    coordinator started from and the indices of the [phaseStarted] messages
    received, and the phases announced to the caller are exactly the
    indices that, on arrival, were above the phase current then. *)
Theorem currentPhase_is_running_maximum inputs this after :
  process inputs this = Ok after →
  _currentPhase after = foldl Z.max (_currentPhase this) (started inputs) ∧
  phase_indices (events after) =
    phase_indices (events this) ++ new_highs (_currentPhase this) (started inputs).
Proof.
  revert this. induction inputs as [|i inputs IH]; intros this; cbn [process].
  - intros [= <-]. split; [reflexivity|]. now rewrite app_nil_r.
  - destruct (deliver i this) as [mid|] eqn:Hd; [|discriminate].
    intros Hrest. destruct (IH mid Hrest) as [-> ->].
    destruct (deliver_currentPhase i this mid Hd) as [-> ->].
    rewrite (started_cons i inputs), foldl_app, new_highs_app, app_assoc.
    split; reflexivity.
Qed.

(** *** How many [stats] events *)

Lemma ticks_snoc inputs i : ticks (inputs ++ [i]) = ticks inputs ++ ticks [i].
Proof. apply omap_app. Qed.

(** X7: every tick of the timer and every completion emit one [stats]
    event and nothing else does: the [stats] events emitted over any inputs
    are as many as the ticks among the inputs plus the [done] events
    emitted. *)
Theorem stats_events_are_ticks_plus_completions inputs this after :
  process inputs this = Ok after →
  (length (stats_reports (events after)) + length (done_reports (events this)) =
   length (stats_reports (events this)) + length (ticks inputs)
   + length (done_reports (events after)))%nat.
Proof.
  revert after. induction inputs as [|i inputs IH] using rev_ind; intros after.
  - simpl. intros [= <-]. change (ticks (Json := Json) []) with (@nil unit). simpl. lia.
  - rewrite process_snoc. destruct (process inputs this) as [mid|]; [|discriminate].
    specialize (IH mid eq_refl). rewrite ticks_snoc, length_app.
    intros [-> -> | m -> He Hlt -> | m -> Hns Hnd -> | m -> He ->
           | m w -> He Hw marked Hc -> | m w -> He Hw marked Hc ->]%deliver_delivered;
      try subst marked; simpl;
      try (change (ticks (Json := Json) [Incoming m]) with (@nil unit));
      try (change (ticks (Json := Json) [Tick]) with [()]);
      rewrite ?stats_reports_snoc, ?done_reports_snoc, ?length_app; simpl;
      rewrite ?stats_reports_snoc, ?done_reports_snoc, ?length_app; simpl;
      rewrite ?app_nil_r; lia.
Qed.

(** *** A run without workers *)

(** X8: when the distributor returns no script, [run] registers no worker;
    from then on every [done] message makes the handler throw, and whatever
    inputs the loop does handle, [done] is never emitted. *)
Theorem no_worker_no_done script payload opts h :
  divideWork script (numWorkers h) = [] →
  _workers (run h (createRunner script payload opts)) = ∅ ∧
  (∀ m, event m = "done" →
        _onWorkerMessage m (run h (createRunner script payload opts)) = TypeError) ∧
  ∀ inputs st,
    process inputs (run h (createRunner script payload opts)) = Ok st →
    done_pids inputs = [] ∧ done_reports (events st) = [].
Proof.
  intros Hnone.
  assert (_workers (run h (createRunner script payload opts)) = ∅) as Hempty.
  { rewrite run_workers. unfold workerScripts. simpl. now rewrite Hnone. }
  split; [exact Hempty|]. split.
  - intros m He. rewrite onWorkerMessage_done, Hempty by exact He.
    now rewrite lookup_empty.
  - intros inputs st Hst. split.
    + assert (Forall (λ q, q ∈ dom (_workers (run h (createRunner script payload opts))))
                (done_pids inputs)) as Hknown.
      { clear Hempty. revert Hst. generalize (run h (createRunner script payload opts)).
        induction inputs as [|i inputs IH]; intros this; cbn [process].
        - constructor.
        - destruct (deliver i this) as [mid|] eqn:Hd; [|discriminate].
          intros Hrest. rewrite done_pids_cons. apply Forall_app. split.
          + exact (deliver_Ok_known _ _ _ Hd).
          + rewrite <- (delivered_dom _ _ _ (deliver_delivered _ _ _ Hd)). now apply IH. }
      rewrite Hempty, dom_empty_L in Hknown.
      destruct (done_pids inputs) as [|q qs]; [reflexivity|].
      apply Forall_cons in Hknown as [Hq _]. now apply not_elem_of_empty in Hq.
    + refine (proj2 (process_invariant
                (λ st, _workers st = ∅ ∧ done_reports (events st) = []) _
                inputs _ st Hst _)).
      * intros i a b
          [-> -> | m -> He Hlt -> | m -> Hns Hnd -> | m -> He ->
          | m w -> He Hw marked Hc -> | m w -> He Hw marked Hc ->] [Ha Hb];
          simpl; rewrite ?done_reports_snoc, ?app_nil_r; try (split; assumption);
          rewrite Ha, lookup_empty in Hw; discriminate.
      * split; [exact Hempty|].
        now destruct (run_createRunner script payload opts h) as (-> & _).
Qed.

(** *** More on the aggregate concurrency *)

Lemma foldl_max_spec (c : Z) (cs : list Z) :
  foldl Z.max c cs ∈ c :: cs ∧ ∀ x, x ∈ c :: cs → x ≤ foldl Z.max c cs.
Proof.
  revert c. induction cs as [|d cs IH]; intros c; simpl.
  - split; [apply list_elem_of_here|]. intros x ->%list_elem_of_singleton. lia.
  - destruct (IH (Z.max c d)) as [Hin Hmax]. split.
    + apply elem_of_cons in Hin as [Heq|Hin]; [|now do 2 apply list_elem_of_further].
      rewrite Heq. destruct (Z.max_spec c d) as [[_ ->]|[_ ->]];
        [apply list_elem_of_further, list_elem_of_here | apply list_elem_of_here].
    + intros x Hx. pose proof (Hmax (Z.max c d) (list_elem_of_here _ _)) as Hcd.
      apply elem_of_cons in Hx as [->|Hx]; [lia|].
      apply elem_of_cons in Hx as [->|Hx]; [lia|].
      apply Hmax. now apply list_elem_of_further.
Qed.

Lemma worker_maximum_Permutation p buffer buffer' :
  buffer ≡ₚ buffer' → worker_maximum p buffer = worker_maximum p buffer'.
Proof.
  intros Hperm. unfold worker_maximum.
  assert (concurrencies_of p buffer ≡ₚ concurrencies_of p buffer') as Hc
    by (unfold concurrencies_of; now rewrite Hperm).
  destruct (concurrencies_of p buffer) as [|c cs],
           (concurrencies_of p buffer') as [|c' cs']; try reflexivity.
  - now apply Permutation_nil_cons in Hc.
  - symmetry in Hc. now apply Permutation_nil_cons in Hc.
  - destruct (foldl_max_spec c cs) as [Hin Hmax], (foldl_max_spec c' cs') as [Hin' Hmax'].
    rewrite Hc in Hin. rewrite <- Hc in Hin'.
    specialize (Hmax _ Hin'). specialize (Hmax' _ Hin). f_equal. lia.
Qed.

(** X9: the concurrency a flush reports does not depend on the order in
    which the snapshots of the interval arrived. *)
Theorem averageConcurrency_order_independent buffer buffer' :
  buffer ≡ₚ buffer' →
  maxWorkerConcurrencies buffer = maxWorkerConcurrencies buffer' ∧
  averageConcurrency buffer = averageConcurrency buffer'.
Proof.
  intros Hperm.
  assert (maxWorkerConcurrencies buffer = maxWorkerConcurrencies buffer') as Heq.
  { apply map_eq. intros p. rewrite !maxWorkerConcurrencies_lookup.
    now apply worker_maximum_Permutation. }
  split; [exact Heq|]. unfold averageConcurrency. now rewrite Heq.
Qed.

Lemma L_sum_snoc (l : list Z) (x : Z) : L_sum (l ++ [x]) = L_sum l + x.
Proof. unfold L_sum. induction l as [|y l IH]; simpl; lia. Qed.

Lemma L_sum_values_insert_fresh (acc : gmap Z Z) k v :
  acc !! k = None → L_sum (L_values (<[k := v]> acc)) = L_sum (L_values acc) + v.
Proof.
  intros Hk. unfold L_values.
  rewrite (L_sum_Permutation _ _ (fmap_Permutation snd _ _ (map_to_list_insert acc k v Hk))).
  rewrite fmap_cons. unfold L_sum. simpl. lia.
Qed.

Lemma L_sum_values_insert_known (acc : gmap Z Z) k v v' :
  acc !! k = Some v →
  L_sum (L_values (<[k := v']> acc)) = L_sum (L_values acc) - v + v'.
Proof.
  intros Hk. rewrite <- (insert_delete_eq acc k v').
  rewrite L_sum_values_insert_fresh by apply lookup_delete_eq.
  unfold L_values at 2.
  rewrite <- (L_sum_Permutation _ _
                (fmap_Permutation snd _ _ (map_to_list_delete acc k v Hk))).
  rewrite fmap_cons. unfold L_values, L_sum. simpl. lia.
Qed.

Lemma aggregate_snoc buffer el :
  L_sum (L_values (maxWorkerConcurrencies (buffer ++ [el]))) =
  L_sum (L_values (maxWorkerConcurrencies buffer)) +
  match maxWorkerConcurrencies buffer !! el.1 with
  | Some v => Z.max v (_concurrency el.2) - v
  | None => _concurrency el.2
  end.
Proof.
  rewrite maxWorkerConcurrencies_snoc.
  destruct (maxWorkerConcurrencies buffer !! el.1) as [v|] eqn:Hk.
  - rewrite (L_sum_values_insert_known _ _ v) by exact Hk. lia.
  - now rewrite L_sum_values_insert_fresh by exact Hk.
Qed.

(** X10: when every worker has one snapshot in the buffer, the case
    [combine] presumes, the concurrency a flush reports is [round] of the
    plain sum of the snapshots' concurrencies. *)
Theorem averageConcurrency_one_snapshot_per_worker buffer :
  NoDup buffer.*1 →
  averageConcurrency buffer = round (L_sum (_concurrency <$> buffer.*2)) 1.
Proof.
  intros Hnodup. unfold averageConcurrency. f_equal.
  induction buffer as [|el buffer IH] using rev_ind; [reflexivity|].
  rewrite fmap_app in Hnodup. apply NoDup_app in Hnodup as (Hnodup & Hfresh & _).
  rewrite aggregate_snoc, !fmap_app, !list_fmap_singleton, L_sum_snoc, (IH Hnodup).
  assert (maxWorkerConcurrencies buffer !! el.1 = None) as ->; [|reflexivity].
  rewrite maxWorkerConcurrencies_lookup. apply eq_None_not_Some.
  intros Hin%worker_maximum_is_Some. apply (Hfresh _ Hin), list_elem_of_here.
Qed.

Lemma aggregate_bounds buffer :
  Forall (λ el, 0 ≤ _concurrency el.2) buffer →
  (∀ k v, maxWorkerConcurrencies buffer !! k = Some v →
          0 ≤ v ≤ L_sum (L_values (maxWorkerConcurrencies buffer))) ∧
  0 ≤ L_sum (L_values (maxWorkerConcurrencies buffer))
    ≤ L_sum (_concurrency <$> buffer.*2) ∧
  (∀ el, el ∈ buffer →
         ∃ v, maxWorkerConcurrencies buffer !! el.1 = Some v ∧ _concurrency el.2 ≤ v).
Proof.
  induction buffer as [|el buffer IH] using rev_ind; intros Hpos.
  - split_and!; [intros k v; unfold maxWorkerConcurrencies; simpl;
                 now rewrite lookup_empty
                | reflexivity | reflexivity
                | intros el Hel; now apply elem_of_nil in Hel].
  - apply Forall_app in Hpos as [Hpos Hel]. rewrite Forall_singleton in Hel.
    destruct (IH Hpos) as (Hvalues & [Hlow Hhigh] & Hmembers).
    rewrite aggregate_snoc, !fmap_app, !list_fmap_singleton, L_sum_snoc,
      maxWorkerConcurrencies_snoc.
    destruct (maxWorkerConcurrencies buffer !! el.1) as [v|] eqn:Hk.
    + pose proof (Hvalues _ _ Hk) as Hv. split_and!.
      * intros k v'. destruct (decide (el.1 = k)) as [<-|Hne].
        -- rewrite lookup_insert_eq. intros [= <-]. lia.
        -- rewrite lookup_insert_ne by exact Hne. intros Hk'.
           pose proof (Hvalues _ _ Hk'). lia.
      * lia.
      * lia.
      * intros el' [Hin|Hlast%list_elem_of_singleton]%elem_of_app.
        -- destruct (Hmembers _ Hin) as (v' & Hv' & Hle).
           destruct (decide (el.1 = el'.1)) as [Heq|Hne].
           ++ rewrite Heq, lookup_insert_eq. eexists. split; [reflexivity|].
              rewrite <- Heq, Hk in Hv'. injection Hv' as <-. lia.
           ++ rewrite lookup_insert_ne by exact Hne. eauto.
        -- subst el'. rewrite lookup_insert_eq. eexists. split; [reflexivity|]. lia.
    + split_and!.
      * intros k v'. destruct (decide (el.1 = k)) as [<-|Hne].
        -- rewrite lookup_insert_eq. intros [= <-]. lia.
        -- rewrite lookup_insert_ne by exact Hne. intros Hk'.
           pose proof (Hvalues _ _ Hk'). lia.
      * lia.
      * lia.
      * intros el' [Hin|Hlast%list_elem_of_singleton]%elem_of_app.
        -- destruct (Hmembers _ Hin) as (v' & Hv' & Hle).
           destruct (decide (el.1 = el'.1)) as [Heq|Hne]; [congruence|].
           rewrite lookup_insert_ne by exact Hne. eauto.
        -- subst el'. rewrite lookup_insert_eq. eexists. split; [reflexivity|]. lia.
Qed.

(** X11: when no buffered snapshot has a negative concurrency, the
    concurrency a flush hands to [round] is at least the concurrency of
    every single snapshot and at most the sum of them all. *)
Theorem aggregate_between_largest_and_total buffer :
  Forall (λ el, 0 ≤ _concurrency el.2) buffer →
  (∀ el, el ∈ buffer →
         _concurrency el.2 ≤ L_sum (L_values (maxWorkerConcurrencies buffer))) ∧
  0 ≤ L_sum (L_values (maxWorkerConcurrencies buffer))
    ≤ L_sum (_concurrency <$> buffer.*2).
Proof.
  intros Hpos. destruct (aggregate_bounds buffer Hpos) as (Hvalues & Hrange & Hmembers).
  split; [|exact Hrange]. intros el Hel.
  destruct (Hmembers el Hel) as (v & Hv & Hle). pose proof (Hvalues _ _ Hv). lia.
Qed.

(** *** What [run] registers *)

Lemma spawn_all_script h this (scripts : list (Script Json)) i s :
  NoDup (fork h <$> seq 0 (length scripts)) →
  scripts !! i = Some s →
  _workers (spawn_all h this scripts) !! fork h i =
  Some (mkWorker
          (mkChildProcess (fork h i)
             [mkCommand "run" (mkRunOpts s (_payload this) (_opts this))] false)
          false).
Proof.
  induction scripts as [|s' scripts IH] using rev_ind; [now rewrite lookup_nil|].
  rewrite length_app, seq_app, fmap_app. simpl.
  intros (Hnodup & Hfresh & _)%NoDup_app Hi. rewrite spawn_all_snoc. simpl.
  destruct (spawn_all_payload h this scripts) as [-> ->].
  destruct (decide (i < length scripts)%nat) as [Hlt|Hge].
  - rewrite lookup_app_l in Hi by exact Hlt.
    rewrite lookup_insert_ne; [now apply IH|].
    intros Heq. apply (Hfresh (fork h i)); [|rewrite Heq; apply list_elem_of_here].
    apply list_elem_of_fmap. exists i. split; [reflexivity|]. apply elem_of_seq. lia.
  - assert (i = length scripts) as ->.
    { apply lookup_lt_Some in Hi. rewrite length_app in Hi. simpl in Hi. lia. }
    rewrite list_lookup_middle in Hi by reflexivity. injection Hi as ->.
    now rewrite lookup_insert_eq.
Qed.

(** X12: when the children forked by a call of [run] get distinct pids,
    the child forked for the [i]-th script of the distributor is registered
    under its pid as not done and not killed, and has been sent one command,
    [run], carrying that script with [statsInterval] overwritten to 1 and
    the coordinator's payload and options. *)
Theorem run_registers_each_script h this i s :
  NoDup (fork h <$> seq 0 (length (divideWork (_script this) (numWorkers h)))) →
  divideWork (_script this) (numWorkers h) !! i = Some s →
  _workers (run h this) !! fork h i =
  Some (mkWorker
          (mkChildProcess (fork h i)
             [mkCommand "run"
                (mkRunOpts (mkScript (mkConfig 1 (settings (config s))) (scenarios s))
                   (_payload this) (_opts this))]
             false)
          false).
Proof.
  intros Hnodup Hi. rewrite run_workers.
  apply spawn_all_script.
  - now rewrite length_workerScripts.
  - unfold workerScripts. now rewrite list_lookup_fmap, Hi.
Qed.

(** *** What a [done] message emits *)

(** X13: a [done] message of a registered worker emits a [stats] event
    and then a [done] event, and empties the pending buffer, exactly if no
    worker is active once this one is marked done; that includes a [done]
    repeated after completion.  Otherwise it emits nothing and leaves the
    buffer alone. *)
Theorem done_emits_when_none_active m this w :
  event m = "done" →
  _workers this !! pid m = Some w →
  ∃ after,
    _onWorkerMessage m this = Ok after ∧
    (_activeWorkerCount this - (if isDone w then 0 else 1) = 0 →
     events after =
       events this ++ [EmitStats (flush_report (_intermediates this));
                       EmitDone (combine (_allIntermediates this))] ∧
     _intermediates after = []) ∧
    (_activeWorkerCount this - (if isDone w then 0 else 1) ≠ 0 →
     events after = events this ∧ _intermediates after = _intermediates this).
Proof.
  intros He Hw. rewrite onWorkerMessage_done, Hw by exact He. simpl.
  pose proof (active_workers_mark (_workers this) (pid m) w
                (mkWorker (kill (proc w)) true) Hw) as Hmark. simpl in Hmark.
  assert (_activeWorkerCount
            (set_workers (<[pid m := mkWorker (kill (proc w)) true]> (_workers this)) this)
          = _activeWorkerCount this - (if isDone w then 0 else 1)) as Hcount.
  { rewrite !activeWorkerCount_length. simpl. destruct (isDone w); lia. }
  rewrite Hcount.
  destruct (Z.eqb_spec (_activeWorkerCount this - (if isDone w then 0 else 1)) 0)
    as [Hzero|Hnonzero]; eexists; (split; [reflexivity|]); split; intros Hc;
    try contradiction; simpl.
  - now rewrite <- app_assoc.
  - easy.
Qed.

End MoreProperties.

(** ** The model at work *)

(** The example of the specification: worker A reports concurrency 3, 5, 2
    and worker B reports 4, 4 within one interval; the flush reports 9. *)
Example flush_of_two_workers :
  ∃ st,
    process (lib := Demo.stats_lib)
      [Demo.snapshot 100 3 1; Demo.snapshot 101 4 2; Demo.snapshot 100 5 3;
       Demo.snapshot 101 4 4; Demo.snapshot 100 2 5; Tick]
      Demo.fresh = Ok st ∧
    events st = [EmitStats (mkStats 9 [1; 2; 3; 4; 5])] ∧
    _intermediates st = [].
Proof. eexists. split; [vm_compute; reflexivity|]. split; vm_compute; reflexivity. Qed.

(** With three workers registered and [done] received from two of them,
    [done] has not been emitted. *)
Example two_of_three_workers_done :
  done_pids [Incoming (Demo.done 200); Incoming (Demo.done 201)] = [200; 201] ∧
  dom (_workers Demo.three_workers) = {[200; 201; 202]} ∧
  events (Demo.after [Incoming (Demo.done 200); Incoming (Demo.done 201)]
            Demo.three_workers) = [].
Proof.
  split_and!; [vm_compute; reflexivity | | vm_compute; reflexivity].
  decide_by_computation.
Qed.

(** Five intervals of data, each snapshot with a marker of its own: the
    final report holds all five markers, the last flush only the fifth. *)
Example final_report_of_five_intervals :
  events (Demo.after
            [Demo.snapshot 100 1 1; Tick; Demo.snapshot 100 2 2; Tick;
             Demo.snapshot 100 3 3; Tick; Demo.snapshot 100 4 4; Tick;
             Demo.snapshot 100 5 5; Incoming (Demo.done 100)]
            Demo.one_worker) =
  [EmitStats (mkStats 1 [1]); EmitStats (mkStats 2 [2]); EmitStats (mkStats 3 [3]);
   EmitStats (mkStats 4 [4]); EmitStats (mkStats 5 [5]);
   EmitDone (mkStats 15 [1; 2; 3; 4; 5])].
Proof. vm_compute. reflexivity. Qed.

(** *** The theorems at concrete inputs *)

Lemma done_at_most_once_witness :
  ∃ st,
    process (lib := Demo.stats_lib)
      [Incoming (Demo.done 200); Demo.snapshot 201 4 1; Incoming (Demo.done 201)]
      Demo.three_workers = Ok st ∧
    done_reports (events st) = [].
Proof.
  destruct (done_at_most_once_after_all_workers (lib := Demo.stats_lib)
              (dist := Demo.distributor3) Demo.the_script [] [] Demo.host3
              [Incoming (Demo.done 200); Demo.snapshot 201 4 1; Incoming (Demo.done 201)])
    as (st & Hst & _ & [Hfired _] & _).
  - decide_by_computation.
  - decide_by_computation.
  - exists st. split; [exact Hst|].
    destruct (done_reports (events st)) as [|report reports]; [reflexivity|].
    destruct Hfired as [_ Hall]; [discriminate|].
    assert (202 ∉ done_pids [Incoming (Demo.done 200); Demo.snapshot 201 4 1;
                             Incoming (Demo.done 201)]) as Hnot
      by decide_by_computation.
    destruct Hnot. apply Hall. decide_by_computation.
Defined.

(** One worker that sends [done] twice: [done] is emitted twice. *)
Lemma repeated_done_fires_twice :
  dom (_workers Demo.one_worker) = {[100]} ∧
  ∃ st,
    process (lib := Demo.stats_lib)
      [Incoming (Demo.done 100); Incoming (Demo.done 100)] Demo.one_worker = Ok st ∧
    done_reports (events st) = [mkStats 0 []; mkStats 0 []].
Proof.
  split.
  - decide_by_computation.
  - eexists. split; vm_compute; reflexivity.
Qed.

Lemma phaseStarted_witness :
  ∃ st,
    process (lib := Demo.stats_lib)
      [Demo.phaseStarted 0; Demo.phaseStarted 0; Demo.phaseStarted 1;
       Demo.phaseStarted 0; Demo.phaseStarted 2; Demo.phaseStarted 1]
      Demo.three_workers = Ok st ∧
    StronglySorted Z.lt (phase_indices (events st)) ∧
    ∀ earlier later,
      [Demo.phaseStarted 0; Demo.phaseStarted 0; Demo.phaseStarted 1;
       Demo.phaseStarted 0; Demo.phaseStarted 2; Demo.phaseStarted 1]
      = earlier ++ later →
      ∃ mid,
        process (lib := Demo.stats_lib) earlier Demo.three_workers = Ok mid ∧
        -1 ≤ _currentPhase mid ≤ _currentPhase st.
Proof.
  refine (proj1 (phaseStarted_strictly_increasing (lib := Demo.stats_lib)
                   (dist := Demo.distributor3) Demo.the_script [] [] Demo.host3
                   [Demo.phaseStarted 0; Demo.phaseStarted 0; Demo.phaseStarted 1;
                    Demo.phaseStarted 0; Demo.phaseStarted 2; Demo.phaseStarted 1] _)).
  decide_by_computation.
Defined.

(** The phases announced in that run. *)
Example phases_of_three_workers :
  phase_indices
    (events (Demo.after
               [Demo.phaseStarted 0; Demo.phaseStarted 0; Demo.phaseStarted 1;
                Demo.phaseStarted 0; Demo.phaseStarted 2; Demo.phaseStarted 1]
               Demo.three_workers)) = [0; 1; 2].
Proof. vm_compute. reflexivity. Qed.

Lemma done_report_witness :
  _allIntermediates
    (Demo.after [Demo.snapshot 100 3 1; Tick; Demo.snapshot 100 4 2] Demo.one_worker) =
    [mkStats 3 [1]; mkStats 4 [2]] ∧
  events
    (Demo.after [Demo.snapshot 100 3 1; Tick; Demo.snapshot 100 4 2;
                 Incoming (Demo.done 100)] Demo.one_worker) =
    [EmitStats (mkStats 3 [1]); EmitStats (mkStats 4 [2]); EmitDone (mkStats 7 [1; 2])].
Proof.
  exact (done_report_merges_whole_history (lib := Demo.stats_lib)
           (dist := Demo.distributor) Demo.the_script [] [] Demo.host
           [Demo.snapshot 100 3 1; Tick; Demo.snapshot 100 4 2] (Demo.done 100)
           (Demo.after [Demo.snapshot 100 3 1; Tick; Demo.snapshot 100 4 2]
              Demo.one_worker)
           (Demo.after [Demo.snapshot 100 3 1; Tick; Demo.snapshot 100 4 2;
                        Incoming (Demo.done 100)] Demo.one_worker)
           ltac:(vm_compute; reflexivity) eq_refl
           ltac:(vm_compute; reflexivity) ltac:(vm_compute; reflexivity)).
Defined.

Lemma flush_clears_witness :
  (∀ this : Runner (list Z),
     _intermediates (_sendStats (lib := Demo.stats_lib) this) = [] ∧
     events (_sendStats (lib := Demo.stats_lib) this) =
       events this ++
       [EmitStats (flush_report (lib := Demo.stats_lib) (_intermediates this))]) ∧
  ∃ mid batches batches',
    process (lib := Demo.stats_lib)
      [Demo.snapshot 100 3 1; Demo.snapshot 100 5 2; Tick] Demo.one_worker = Ok mid ∧
    stats_reports (events mid) = flush_report (lib := Demo.stats_lib) <$> batches ∧
    concat batches ++ _intermediates mid =
      received [Demo.snapshot 100 3 1; Demo.snapshot 100 5 2; Tick] ∧
    stats_reports
      (events (Demo.after [Demo.snapshot 100 3 1; Demo.snapshot 100 5 2; Tick;
                           Demo.snapshot 100 4 3; Tick; Demo.snapshot 100 1 4]
                 Demo.one_worker)) =
      flush_report (lib := Demo.stats_lib) <$> (batches ++ batches') ∧
    concat (batches ++ batches') ++
      _intermediates
        (Demo.after [Demo.snapshot 100 3 1; Demo.snapshot 100 5 2; Tick;
                     Demo.snapshot 100 4 3; Tick; Demo.snapshot 100 1 4]
           Demo.one_worker) =
      received ([Demo.snapshot 100 3 1; Demo.snapshot 100 5 2; Tick] ++
                [Demo.snapshot 100 4 3; Tick; Demo.snapshot 100 1 4]).
Proof.
  exact (flush_clears_and_partitions (lib := Demo.stats_lib) (dist := Demo.distributor)
           Demo.the_script [] [] Demo.host
           [Demo.snapshot 100 3 1; Demo.snapshot 100 5 2; Tick]
           [Demo.snapshot 100 4 3; Tick; Demo.snapshot 100 1 4]
           (Demo.after [Demo.snapshot 100 3 1; Demo.snapshot 100 5 2; Tick;
                        Demo.snapshot 100 4 3; Tick; Demo.snapshot 100 1 4]
              Demo.one_worker)
           ltac:(vm_compute; reflexivity)).
Defined.

(** The batches of that run, spelled out. *)
Example flushes_of_two_intervals :
  events (Demo.after [Demo.snapshot 100 3 1; Demo.snapshot 100 5 2; Tick;
                      Demo.snapshot 100 4 3; Tick; Demo.snapshot 100 1 4]
            Demo.one_worker) =
    [EmitStats (mkStats 5 [1; 2]); EmitStats (mkStats 4 [3])] ∧
  _intermediates
    (Demo.after [Demo.snapshot 100 3 1; Demo.snapshot 100 5 2; Tick;
                 Demo.snapshot 100 4 3; Tick; Demo.snapshot 100 1 4]
       Demo.one_worker) = [(100, mkStats 1 [4])].
Proof. split; vm_compute; reflexivity. Qed.

Lemma counting_distributor_by_count :
  distributes_by_count Sample.counting_distributor.
Proof.
  intros script v n Hn. unfold divideWork, Sample.counting_distributor.
  rewrite Hn. apply length_replicate.
Qed.

Lemma numWorkers_witness :
  (numWorkers Demo.host3 = JsStr "3" ∧
   size (_workers (run (dist := Sample.counting_distributor) Demo.host3 Demo.fresh))
     = 3%nat) ∧
  (numWorkers Demo.host = JsNum 1 ∧
   size (_workers (run (dist := Sample.counting_distributor) Demo.host Demo.fresh))
     = 1%nat) ∧
  numWorkers (mkHost None 64 (fork Demo.host)) = numWorkers Demo.host.
Proof.
  destruct (numWorkers_from_environment (dist := Sample.counting_distributor)
              Demo.host3 Demo.the_script [] [] counting_distributor_by_count)
    as (Hset & _ & _ & Hcount & _); [decide_by_computation|].
  destruct (numWorkers_from_environment (dist := Sample.counting_distributor)
              Demo.host Demo.the_script [] [] counting_distributor_by_count)
    as (_ & Hunset & Hcpus & _ & Hone); [decide_by_computation|].
  split_and!.
  - apply Hset; [reflexivity | discriminate].
  - apply (Hcount "3" 3); [reflexivity | discriminate | reflexivity].
  - apply Hunset. now left.
  - apply Hone. now left.
  - apply Hcpus.
Defined.

(** [ARTILLERY_WORKERS] is present and empty: the value read is the empty
    string, which as a number is 0, yet the pool size is 1 and one worker is
    registered. *)
Lemma empty_ARTILLERY_WORKERS_counts_as_unset :
  ARTILLERY_WORKERS Demo.host_empty = Some "" ∧
  numWorkers Demo.host_empty = JsNum 1 ∧
  numWorkers Demo.host_empty ≠ JsStr "" ∧
  dom (_workers (run (dist := Demo.distributor) Demo.host_empty Demo.fresh)) = {[300]} ∧
  ToNumber (JsStr "") = Some 0 ∧
  size (_workers (run (dist := Sample.counting_distributor) Demo.host_empty Demo.fresh))
    = 1%nat.
Proof.
  split_and!; [reflexivity | reflexivity | discriminate | | reflexivity |].
  - decide_by_computation.
  - vm_compute. reflexivity.
Qed.

Lemma onWorkerMessage_ignored_witness :
  _onWorkerMessage (lib := Demo.stats_lib) Demo.phaseCompleted Demo.one_worker
    = Ok Demo.one_worker ∧
  _onWorkerMessage (lib := Demo.stats_lib) Demo.unknown Demo.one_worker
    = Ok Demo.one_worker.
Proof.
  split; apply onWorkerMessage_ignored.
  - left. reflexivity.
  - right. intros Hin. repeat (apply elem_of_cons in Hin as [[=]|Hin]).
    now apply elem_of_nil in Hin.
Defined.

Lemma onWorkerMessage_done_unknown_pid_witness :
  _onWorkerMessage (lib := Demo.stats_lib) (Demo.done 5) Demo.one_worker = TypeError.
Proof.
  apply onWorkerMessage_done_unknown_pid; [reflexivity|]. vm_compute. reflexivity.
Defined.

Lemma sendStats_empty_buffer_witness :
  events (_sendStats (lib := Demo.stats_lib) Demo.one_worker) =
    [EmitStats (mkStats 0 [])] ∧
  _intermediates (_sendStats (lib := Demo.stats_lib) Demo.one_worker) = [].
Proof.
  destruct (sendStats_empty_buffer (lib := Demo.stats_lib) Demo.one_worker)
    as (_ & Hbuffer & Hzero); [vm_compute; reflexivity|].
  split; [exact (Hzero eq_refl) | exact Hbuffer].
Defined.

Lemma run_is_not_guarded_witness :
  timers (run (dist := Demo.distributor3) Demo.host3 Demo.one_worker) = [10000; 10000] ∧
  (∃ w, _workers (run (dist := Demo.distributor3) Demo.host3 Demo.one_worker) !! 202
          = Some w ∧ isDone w = false) ∧
  _workers (run (dist := Demo.distributor3) Demo.host3 Demo.one_worker) !! 100
    = _workers Demo.one_worker !! 100 ∧
  _activeWorkerCount (run (dist := Demo.distributor3) Demo.host3 Demo.one_worker) ≠ 0.
Proof.
  destruct (run_is_not_guarded (lib := Demo.stats_lib) (dist := Demo.distributor3)
              Demo.host3 Demo.one_worker)
    as (_ & _ & _ & _ & Htimers & Hforked & Hothers & Hactive & _).
  split_and!.
  - exact Htimers.
  - apply (Hforked 2%nat). vm_compute. lia.
  - apply Hothers. intros i _. unfold Demo.host3. simpl. lia.
  - apply Hactive. discriminate.
Defined.

(** A run that has completed, and [run] called on it once more: the call
    goes through, three further workers are registered as not done and a
    second timer is set. *)
Lemma run_again_after_completion :
  timers Demo.completed = [10000] ∧
  _activeWorkerCount Demo.completed = 0 ∧
  done_reports (events Demo.completed) = [mkStats 0 []] ∧
  timers (run (dist := Demo.distributor3) Demo.host3 Demo.completed) = [10000; 10000] ∧
  _activeWorkerCount (run (dist := Demo.distributor3) Demo.host3 Demo.completed) = 3 ∧
  run (dist := Demo.distributor3) Demo.host3 Demo.completed ≠ Demo.completed.
Proof.
  split_and!; try (vm_compute; reflexivity).
  intros Heq. apply (f_equal timers) in Heq. vm_compute in Heq. discriminate.
Qed.

(** *** The further properties at concrete inputs *)

Lemma done_lowers_activeWorkerCount_witness :
  ∃ after,
    _onWorkerMessage (lib := Demo.stats_lib) (Demo.done 200) Demo.three_workers
      = Ok after ∧
    _activeWorkerCount after = 2.
Proof.
  destruct (done_lowers_activeWorkerCount (lib := Demo.stats_lib)
              (Demo.done 200) Demo.three_workers (Sample.registered 200))
    as (after & Hafter & Hcount);
    [reflexivity | vm_compute; reflexivity |].
  exists after. split; [exact Hafter|]. rewrite Hcount. vm_compute. reflexivity.
Defined.

Lemma activeWorkerCount_never_increases_witness :
  _activeWorkerCount (Demo.after Sample.two_finish Demo.three_workers)
  ≤ _activeWorkerCount Demo.three_workers.
Proof.
  exact (activeWorkerCount_never_increases (lib := Demo.stats_lib)
           Sample.two_finish Demo.three_workers
           (Demo.after Sample.two_finish Demo.three_workers)
           ltac:(vm_compute; reflexivity)).
Defined.

Lemma workers_stay_registered_witness :
  dom (_workers (Demo.after Sample.two_finish Demo.three_workers))
    = dom (_workers Demo.three_workers) ∧
  ∀ q w,
    _workers (Demo.after Sample.two_finish Demo.three_workers) !! q = Some w →
    registered_by_run [] [] q w ∧ (isDone w = true ↔ q ∈ done_pids Sample.two_finish).
Proof.
  exact (workers_stay_registered (lib := Demo.stats_lib) (dist := Demo.distributor3)
           Demo.the_script [] [] Demo.host3 Sample.two_finish
           (Demo.after Sample.two_finish Demo.three_workers)
           ltac:(vm_compute; reflexivity)).
Defined.

Lemma currentPhase_is_running_maximum_witness :
  _currentPhase (Demo.after Sample.two_finish Demo.three_workers) = 1 ∧
  phase_indices (events (Demo.after Sample.two_finish Demo.three_workers)) = [0; 1].
Proof.
  destruct (currentPhase_is_running_maximum (lib := Demo.stats_lib)
              Sample.two_finish Demo.three_workers
              (Demo.after Sample.two_finish Demo.three_workers)
              ltac:(vm_compute; reflexivity)) as [-> ->].
  split; vm_compute; reflexivity.
Defined.

Lemma stats_events_witness :
  length (stats_reports (events (Demo.after Sample.two_finish Demo.three_workers)))
    = 2%nat ∧
  length (ticks Sample.two_finish) = 2%nat ∧
  length (done_reports (events (Demo.after Sample.two_finish Demo.three_workers)))
    = 0%nat.
Proof.
  pose proof (stats_events_are_ticks_plus_completions (lib := Demo.stats_lib)
                Sample.two_finish Demo.three_workers
                (Demo.after Sample.two_finish Demo.three_workers)
                ltac:(vm_compute; reflexivity)) as Hcount.
  assert (length (done_reports
                    (events (Demo.after Sample.two_finish Demo.three_workers))) = 0%nat)
    as Hnone by (vm_compute; reflexivity).
  assert (length (ticks Sample.two_finish) = 2%nat) as Hticks
    by (vm_compute; reflexivity).
  assert (length (stats_reports (events Demo.three_workers)) = 0%nat) as Hstart
    by (vm_compute; reflexivity).
  assert (length (done_reports (events Demo.three_workers)) = 0%nat) as Hstart'
    by (vm_compute; reflexivity).
  split; [|split; [exact Hticks | exact Hnone]].
  revert Hcount. rewrite Hnone, Hticks, Hstart, Hstart'. clear. intros Hcount.
  rewrite Nat.add_0_r in Hcount. exact Hcount.
Defined.

Lemma no_worker_no_done_witness :
  _workers (run (dist := Sample.no_distributor) Demo.host Demo.fresh) = ∅ ∧
  _onWorkerMessage (lib := Demo.stats_lib) (Demo.done 100)
    (run (dist := Sample.no_distributor) Demo.host Demo.fresh) = TypeError.
Proof.
  destruct (no_worker_no_done (lib := Demo.stats_lib) (dist := Sample.no_distributor)
              Demo.the_script [] [] Demo.host eq_refl) as (Hempty & Hthrow & _).
  split; [exact Hempty|]. apply Hthrow. reflexivity.
Defined.

Lemma averageConcurrency_order_independent_witness :
  averageConcurrency (lib := Demo.stats_lib) Sample.interval
  = averageConcurrency (lib := Demo.stats_lib) Sample.interval_reordered.
Proof.
  refine (proj2 (averageConcurrency_order_independent (lib := Demo.stats_lib)
                   Sample.interval Sample.interval_reordered _)).
  unfold Sample.interval, Sample.interval_reordered.
  etransitivity; [apply perm_swap|]. apply perm_skip, perm_swap.
Defined.

Lemma averageConcurrency_one_snapshot_per_worker_witness :
  averageConcurrency (lib := Demo.stats_lib)
    [(100, mkStats 3 [1]); (101, mkStats 4 [2]); (102, mkStats 0 [3])] = 7.
Proof.
  rewrite (averageConcurrency_one_snapshot_per_worker (lib := Demo.stats_lib)
             [(100, mkStats 3 [1]); (101, mkStats 4 [2]); (102, mkStats 0 [3])]).
  - reflexivity.
  - decide_by_computation.
Defined.

Lemma aggregate_between_witness :
  5 ≤ L_sum (L_values (maxWorkerConcurrencies Sample.interval)) ≤ 12.
Proof.
  destruct (aggregate_between_largest_and_total Sample.interval) as [Hlow Hhigh].
  - unfold Sample.interval. repeat constructor; simpl; lia.
  - split; [|exact (proj2 Hhigh)].
    apply (Hlow (100, mkStats 5 [3])). unfold Sample.interval.
    do 2 apply list_elem_of_further. apply list_elem_of_here.
Defined.

Lemma run_registers_each_script_witness :
  _workers Demo.three_workers !! 201 = Some (Sample.registered 201).
Proof.
  refine (run_registers_each_script (dist := Demo.distributor3)
            Demo.host3 Demo.fresh 1%nat Demo.the_script _ eq_refl).
  decide_by_computation.
Defined.

Lemma done_emits_when_none_active_witness :
  ∃ after,
    _onWorkerMessage (lib := Demo.stats_lib) (Demo.done 100) Demo.completed = Ok after ∧
    events after =
      events Demo.completed ++ [EmitStats (mkStats 0 []); EmitDone (mkStats 0 [])].
Proof.
  destruct (done_emits_when_none_active (lib := Demo.stats_lib)
              (Demo.done 100) Demo.completed (Sample.finished 100))
    as (after & Hafter & Hlast & _);
    [reflexivity | vm_compute; reflexivity |].
  exists after. split; [exact Hafter|].
  destruct Hlast as [-> _]; [vm_compute; reflexivity|].
  f_equal.
Defined.

(** The example of the specification through the theorem: worker A reports
    concurrency 3, 5, 2 and worker B reports 4, 4; the flush reports 5 + 4. *)
Lemma sendStats_concurrency_witness :
  ∃ combined,
    events (_sendStats (lib := Demo.stats_lib)
              (Demo.after
                 [Demo.snapshot 100 3 1; Demo.snapshot 101 4 2; Demo.snapshot 100 5 3;
                  Demo.snapshot 101 4 4; Demo.snapshot 100 2 5] Demo.fresh))
      = [EmitStats combined] ∧
    _concurrency combined = 9 ∧
    measurements combined = [1; 2; 3; 4; 5].
Proof.
  destruct (sendStats_concurrency (lib := Demo.stats_lib)
              (Demo.after
                 [Demo.snapshot 100 3 1; Demo.snapshot 101 4 2; Demo.snapshot 100 5 3;
                  Demo.snapshot 101 4 4; Demo.snapshot 100 2 5] Demo.fresh))
    as (combined & Hevents & Hconcurrency & Hmeasurements).
  exists combined. split_and!.
  - exact Hevents.
  - rewrite Hconcurrency. vm_compute. reflexivity.
  - rewrite Hmeasurements. vm_compute. reflexivity.
Defined.

Lemma process_throws_on_unknown_done_witness :
  process (lib := Demo.stats_lib)
    [Demo.snapshot 100 3 1; Incoming (Demo.done 5); Incoming (Demo.done 100)]
    Demo.one_worker = TypeError.
Proof.
  apply (proj1 (process_throws_on_unknown_done (lib := Demo.stats_lib)
                  [Demo.snapshot 100 3 1; Incoming (Demo.done 5);
                   Incoming (Demo.done 100)] Demo.one_worker)).
  decide_by_computation.
Defined.
